(** * orderly_sdk: the WebSocket topic manager and the REST response handler

    A shallow embedding of [orderly_sdk/ws.py], of [AsyncClient._request]
    and [AsyncClient._handle_response] in [orderly_sdk/rest.py] and of
    [orderly_sdk/exceptions.py], with the properties of the topic registry,
    the dispatcher, [recv], [unsubscribe], the typed subscribe methods, the
    reconnect loop and the signing of REST requests.

    Python objects are modelled as follows.
    - A decoded JSON document is a [json] value; a Python [dict] is an
      association list in insertion order with item assignment written out.
    - [asyncio.Queue] is the list of its pending items, oldest first.
    - [self.queues], a [defaultdict(asyncio.Queue)], is an association list
      in insertion order (the order [keys()] iterates in); a missing key is
      created by [__getitem__] and is an error for [pop].
    - A coroutine is a function from the state to an outcome and the state it
      leaves behind: a raised exception keeps every mutation made before it.
    - What the event loop and the network decide (which frame arrives, whether
      a wait times out) is a script given to the function. *)

From Stdlib Require Import String Ascii List ZArith Bool Lia DecimalString.
Import ListNotations.
Local Open Scope string_scope.
Local Open Scope list_scope.
Set Warnings "-register-all".

(** ** Python values *)

Module Py.

(** The values [json.loads] produces.  Numbers are the integers: a number
    literal with a fraction or an exponent is not represented. *)
Inductive json : Type :=
| JNull : json
| JBool : bool -> json
| JNum : Z -> json
| JStr : string -> json
| JArr : list json -> json
| JObj : list (string * json) -> json.

(** The exceptions the modelled code raises or lets through. *)
Inductive exn : Type :=
| KeyError (key : json)
| TypeError
| AttributeError (attr : string)
| JSONDecodeError (doc : string)
| ContentTypeError
| ConnectionClosed
| DispatchError (message : json)            (* [raise Exception(message)] *)
| OrderlyRequestException (message : string)
| OrderlyAPIException (status_code : Z) (code : json) (message : json).

(** [str(n)] for an [int]. *)
Definition str_of_int (n : Z) : string := NilZero.string_of_int (Z.to_int n).

(** [bool(v)]: the truth value of a decoded document. *)
Definition truthy (v : json) : bool :=
  match v with
  | JNull => false
  | JBool b => b
  | JNum n => negb (Z.eqb n 0)
  | JStr s => negb (String.eqb s "")
  | JArr l => match l with [] => false | _ => true end
  | JObj o => match o with [] => false | _ => true end
  end.

(** [v == s] for a [str] literal [s]. *)
Definition eq_str (v : json) (s : string) : bool :=
  match v with
  | JStr s' => String.eqb s' s
  | _ => false
  end.

(** [needle in hay] on two [str]. *)
Fixpoint contains (needle hay : string) : bool :=
  if String.prefix needle hay then true
  else match hay with
       | EmptyString => false
       | String _ hay' => contains needle hay'
       end.

(** [d.get(k)] on the items of a [dict]. *)
Fixpoint lookup (k : string) (o : list (string * json)) : option json :=
  match o with
  | [] => None
  | (k', v) :: o' => if String.eqb k' k then Some v else lookup k o'
  end.

(** [d[k] = v] on the items of a [dict]: an existing key keeps its place. *)
Fixpoint assign (k : string) (v : json) (o : list (string * json))
  : list (string * json) :=
  match o with
  | [] => [(k, v)]
  | (k', v') :: o' =>
      if String.eqb k' k then (k', v) :: o' else (k', v') :: assign k v o'
  end.

(** [k in v] for a [str] literal [k]: key membership on a [dict], element
    membership on a [list], substring on a [str], [TypeError] elsewhere. *)
Definition has (k : string) (v : json) : exn + bool :=
  match v with
  | JObj o => inr (match lookup k o with Some _ => true | None => false end)
  | JArr l => inr (existsb (fun x => eq_str x k) l)
  | JStr s => inr (contains k s)
  | _ => inl TypeError
  end.

(** [v[k]] for a [str] literal [k]. *)
Definition getitem (v : json) (k : string) : exn + json :=
  match v with
  | JObj o => match lookup k o with
              | Some x => inr x
              | None => inl (KeyError (JStr k))
              end
  | _ => inl TypeError
  end.

(** [v[k] = x] for a [str] literal [k]. *)
Definition setitem (v : json) (k : string) (x : json) : exn + json :=
  match v with
  | JObj o => inr (JObj (assign k x o))
  | _ => inl TypeError
  end.

(** [v + s] for a [str] literal [s]. *)
Definition add_str (v : json) (s : string) : exn + json :=
  match v with
  | JStr s' => inr (JStr (s' ++ s))
  | _ => inl TypeError
  end.

(** Whether [v] can be a [dict] key. *)
Definition hashable (v : json) : bool :=
  match v with
  | JArr _ | JObj _ => false
  | _ => true
  end.

(** Equality of two [dict] keys: [True] and [1], [False] and [0] are the
    same key. *)
Definition key_eqb (a b : json) : bool :=
  match a, b with
  | JNull, JNull => true
  | JBool x, JBool y => Bool.eqb x y
  | JBool x, JNum n | JNum n, JBool x => Z.eqb n (if x then 1 else 0)
  | JNum n, JNum n' => Z.eqb n n'
  | JStr s, JStr s' => String.eqb s s'
  | _, _ => false
  end.

(** Text as it comes off the wire, by what [json.loads] makes of it. *)
Inductive text : Type :=
| Malformed (raw : string)
| Document (v : json).

Definition loads (t : text) : exn + json :=
  match t with
  | Malformed raw => inl (JSONDecodeError raw)
  | Document v => inr v
  end.

(** How a call ends. *)
Inductive outcome (A : Type) : Type :=
| Return (a : A)
| Raise (e : exn).
Arguments Return {A} a.
Arguments Raise {A} e.

End Py.
Import Py.

(** ** The WebSocket managers ([orderly_sdk/ws.py]) *)

Module Ws.

(** One record per [logger] call of the module. *)
Inductive log_record : Type :=
| LogSending (message : json)       (* debug, [send_json] *)
| LogConnected                      (* debug, [_connect] *)
| LogTimedOut                       (* warning, [_connect] *)
| LogDisconnected                   (* warning, [_connect] *)
| LogException (e : exn)            (* [logger.exception(e)], [_connect] *)
| LogNoMessage (timeout : Z).       (* info, [recv] *)

(** A connection as the manager sees it: whether it is still open and the
    frames sent on it, oldest first, each as the document given to
    [json.dumps]. *)
Record WebSocket : Type := {
  ws_open : bool;
  ws_sent : list json
}.

(** What [OrderlyPrivateWsManager.__init__] adds.  [orderly_private_key] is
    the Ed25519 key as [_signature] uses it: it signs the bytes of a string
    and returns the signature in base64; it is only set when a secret was
    given. *)
Record credentials : Type := {
  orderly_key : option string;
  orderly_secret : option string;
  orderly_private_key : option (string -> string)
}.

Inductive manager_class : Type :=
| OrderlyPublicWsManager
| OrderlyPrivateWsManager (c : credentials).

(** The manager object, with the two pieces of process state its methods
    touch: the logger's output and the system clock ([clock n] is the n-th
    reading of [datetime.now()], in milliseconds, [reads] the number of
    readings taken). *)
Record WsTopicManager : Type := {
  class : manager_class;
  _id : string;
  account_id : string;
  endpoint : string;
  queues : list (json * list json);
  websocket : option WebSocket;
  log : list log_record;
  clock : nat -> Z;
  reads : nat
}.

Definition set_queues (qs : list (json * list json)) (m : WsTopicManager) :=
  {| class := class m; _id := _id m; account_id := account_id m;
     endpoint := endpoint m; queues := qs; websocket := websocket m;
     log := log m; clock := clock m; reads := reads m |}.

Definition set_websocket (w : option WebSocket) (m : WsTopicManager) :=
  {| class := class m; _id := _id m; account_id := account_id m;
     endpoint := endpoint m; queues := queues m; websocket := w;
     log := log m; clock := clock m; reads := reads m |}.

Definition add_log (r : log_record) (m : WsTopicManager) :=
  {| class := class m; _id := _id m; account_id := account_id m;
     endpoint := endpoint m; queues := queues m; websocket := websocket m;
     log := log m ++ [r]; clock := clock m; reads := reads m |}.

Definition tick (m : WsTopicManager) :=
  {| class := class m; _id := _id m; account_id := account_id m;
     endpoint := endpoint m; queues := queues m; websocket := websocket m;
     log := log m; clock := clock m; reads := S (reads m) |}.

(** *** Coroutines *)

Definition coro (A : Type) : Type := WsTopicManager -> outcome A * WsTopicManager.

Definition ret {A} (a : A) : coro A := fun m => (Return a, m).
Definition raise {A} (e : exn) : coro A := fun m => (Raise e, m).
Definition bind {A B} (c : coro A) (k : A -> coro B) : coro B :=
  fun m => match c m with
           | (Return a, m') => k a m'
           | (Raise e, m') => (Raise e, m')
           end.
Definition lift {A} (r : exn + A) : coro A :=
  match r with
  | inl e => raise e
  | inr a => ret a
  end.
Definition modify (f : WsTopicManager -> WsTopicManager) : coro unit :=
  fun m => (Return tt, f m).
Definition logger (r : log_record) : coro unit := modify (add_log r).

Declare Scope coro_scope.
Delimit Scope coro_scope with coro.
Notation "x <- c ;; k" := (bind c (fun x => k))
  (at level 61, c at next level, right associativity) : coro_scope.
Notation "c ;; k" := (bind c (fun _ => k))
  (at level 61, right associativity) : coro_scope.
Local Open Scope coro_scope.

(** [for x in xs: await body(x)] *)
Fixpoint for_each {A} (xs : list A) (body : A -> coro unit) : coro unit :=
  match xs with
  | [] => ret tt
  | x :: xs' => body x ;; for_each xs' body
  end.

(** *** The registry [self.queues] *)

Fixpoint find (k : json) (qs : list (json * list json)) : option (list json) :=
  match qs with
  | [] => None
  | (k', q) :: qs' => if key_eqb k' k then Some q else find k qs'
  end.

(** [d[k] = q] on the items of the registry. *)
Fixpoint store (k : json) (q : list json) (qs : list (json * list json))
  : list (json * list json) :=
  match qs with
  | [] => [(k, q)]
  | (k', q') :: qs' =>
      if key_eqb k' k then (k', q) :: qs' else (k', q') :: store k q qs'
  end.

Fixpoint remove (k : json) (qs : list (json * list json))
  : list (json * list json) :=
  match qs with
  | [] => []
  | (k', q') :: qs' => if key_eqb k' k then qs' else (k', q') :: remove k qs'
  end.

(** [self.queues.keys()] *)
Definition keys (m : WsTopicManager) : list json := map fst (queues m).

(** The pending items of a topic's queue; none when it has no queue. *)
Definition queue_of (topic : json) (m : WsTopicManager) : list json :=
  match find topic (queues m) with
  | Some q => q
  | None => []
  end.

(** [self.queues[topic]]: the [defaultdict] makes the queue when the key is
    missing. *)
Definition queues_getitem (topic : json) : coro (list json) :=
  fun m =>
    if hashable topic then
      match find topic (queues m) with
      | Some q => (Return q, m)
      | None => (Return [], set_queues (queues m ++ [(topic, [])]) m)
      end
    else (Raise TypeError, m).

(** [self.queues[topic].put(data)] *)
Definition queues_put (topic data : json) : coro unit :=
  q <- queues_getitem topic ;;
  modify (fun m => set_queues (store topic (q ++ [data]) (queues m)) m).

(** [self.queues.pop(topic)] *)
Definition queues_pop (topic : json) : coro unit :=
  fun m =>
    if hashable topic then
      match find topic (queues m) with
      | Some _ => (Return tt, set_queues (remove topic (queues m)) m)
      | None => (Raise (KeyError topic), m)
      end
    else (Raise TypeError, m).

(** [self.websocket.send(json.dumps(frame))] *)
Definition websocket_send (frame : json) : coro unit :=
  fun m =>
    match websocket m with
    | None => (Raise (AttributeError "websocket"), m)
    | Some ws =>
        if ws_open ws then
          (Return tt,
           set_websocket
             (Some {| ws_open := true; ws_sent := ws_sent ws ++ [frame] |}) m)
        else (Raise ConnectionClosed, m)
    end.

(** *** [WsTopicManager] *)

(** [__init__]: the endpoint gets the account id appended, the registry
    starts empty, and [self.websocket] is not set before [_connect]. *)
Definition init (cls : manager_class) (id account endpoint_url : string)
    (clk : nat -> Z) : WsTopicManager :=
  {| class := cls; _id := id; account_id := account;
     endpoint := endpoint_url ++ account; queues := []; websocket := None;
     log := []; clock := clk; reads := 0 |}.

(** [subscribe]: [self.queues[topic] = asyncio.Queue()] *)
Definition subscribe (topic : json) : coro unit :=
  fun m =>
    if hashable topic then
      (Return tt, set_queues (store topic [] (queues m)) m)
    else (Raise TypeError, m).

Definition send_json (message : json) : coro unit :=
  has_event <- lift (has "event" message) ;;
  (if has_event : bool then
     event <- lift (getitem message "event") ;;
     if negb (eq_str event "pong") then logger (LogSending message)
     else ret tt
   else ret tt) ;;
  websocket_send message.

Definition subscribe_frame (id : string) (topic : json) : json :=
  JObj [("id", JStr id); ("event", JStr "subscribe"); ("topic", topic)].

Definition do_subscribe (topic : json) : coro unit :=
  fun m => send_json (subscribe_frame (_id m) topic) m.

Definition request_frame (id symbol : string) : json :=
  JObj [("id", JStr id); ("event", JStr "request");
        ("params", JObj [("type", JStr "orderbook"); ("symbol", JStr symbol)])].

Definition request (symbol : string) : coro unit :=
  fun m => send_json (request_frame (_id m) symbol) m.

Definition unsubscribe_frame (id : string) (topic : json) : json :=
  JObj [("id", JStr id); ("event", JStr "unsubscribe"); ("topic", topic)].

Definition unsubscribe (topic : json) : coro unit :=
  (fun m => websocket_send (unsubscribe_frame (_id m) topic) m) ;;
  queues_pop topic.

Definition pong_frame : json := JObj [("event", JStr "pong")].

Definition _handle_heartbeat (message : text) : coro unit :=
  message <- lift (loads message) ;;
  has_event <- lift (has "event" message) ;;
  if has_event : bool then
    event <- lift (getitem message "event") ;;
    if eq_str event "ping" then send_json pong_frame else ret tt
  else ret tt.

Definition _handle_request_orderbook (message : json) : coro unit :=
  d <- lift (getitem message "data") ;;
  symbol <- lift (getitem d "symbol") ;;
  topic <- lift (add_str symbol "@orderbook") ;;
  data <- lift (getitem message "data") ;;
  ts <- lift (getitem message "ts") ;;
  data <- lift (setitem data "ts" ts) ;;
  queues_put topic data.

Definition _handle_general_message (message : json) : coro unit :=
  data <- lift (getitem message "data") ;;
  topic <- lift (getitem message "topic") ;;
  queues_put topic data.

(** Where a call of [recv] stands when the script of its waits ends. *)
Inductive progress (A : Type) : Type :=
| Done (o : outcome A)
| Blocked.
Arguments Done {A} o.
Arguments Blocked {A}.

(** [recv].  [timeout] is [None] or a number of seconds (whole seconds
    here).  Each element of [waits] is one turn of the [while not res]
    loop: the items the dispatcher puts on the topic's queue before
    [wait_for(self.queues[topic].get(), timeout)] completes.  With a
    timeout that is zero or negative [wait_for] cancels the [get()] before
    it runs: the turn is a timeout whatever the queue holds, and what
    arrives stays queued.  Otherwise the item at the front is taken; with
    nothing pending and nothing arriving the wait times out, or never ends
    when [timeout] is [None].  When [waits] ends the call is still inside
    the loop. *)
Fixpoint recv (topic : json) (timeout : option Z) (waits : list (list json))
    (m : WsTopicManager) {struct waits} : progress json * WsTopicManager :=
  match waits with
  | [] => (Blocked, m)
  | arrivals :: waits' =>
      match queues_getitem topic m with
      | (Raise e, m1) => (Done (Raise e), m1)
      | (Return q, m1) =>
          let put x := set_queues (store topic x (queues m1)) m1 in
          let take res q' :=
            if truthy res then (Done (Return res), put q')
            else recv topic timeout waits' (put q') in
          match timeout with
          | Some s =>
              if (s <=? 0)%Z then
                recv topic timeout waits'
                  (add_log (LogNoMessage s) (put (q ++ arrivals)))
              else
                match q ++ arrivals with
                | [] => recv topic timeout waits' (add_log (LogNoMessage s) m1)
                | res :: q' => take res q'
                end
          | None =>
              match q ++ arrivals with
              | [] => (Blocked, m1)
              | res :: q' => take res q'
              end
          end
      end
  end.

(** The last statement of [_handle_message]. *)
Definition dispatch_data (message : json) : coro unit :=
  has_data <- lift (has "data" message) ;;
  if has_data : bool then _handle_general_message message else ret tt.

Definition _handle_message (message : text) : coro unit :=
  message <- lift (loads message) ;;
  has_event <- lift (has "event" message) ;;
  if has_event : bool then
    event <- lift (getitem message "event") ;;
    if negb (eq_str event "ping" || eq_str event "pong") then
      success <- lift (getitem message "success") ;;
      if truthy success then
        has_data <- lift (has "data" message) ;;
        if has_data : bool then
          event <- lift (getitem message "event") ;;
          if eq_str event "request" then _handle_request_orderbook message
          else ret tt
        else ret tt
      else raise (DispatchError message)
    else dispatch_data message
  else dispatch_data message.

(** *** [OrderlyPrivateWsManager] *)

(** [f"ed25519:{self.orderly_key}"] *)
Definition key_label (c : credentials) : string :=
  "ed25519:" ++ match orderly_key c with Some k => k | None => "None" end.

Definition auth_frame (id : string) (c : credentials) (sign : string -> string)
    (ts : Z) : json :=
  JObj [("id", JStr id); ("event", JStr "auth");
        ("params", JObj [("orderly_key", JStr (key_label c));
                         ("sign", JStr (sign (str_of_int ts)));
                         ("timestamp", JStr (str_of_int ts))])].

Definition _login (c : credentials) : coro unit :=
  fun m =>
    let ts := clock m (reads m) in
    match orderly_private_key c with
    | None => (Raise (AttributeError "orderly_private_key"), tick m)
    | Some sign => send_json (auth_frame (_id m) c sign ts) (tick m)
    end.

(** [_reconnect], by the class of the manager. *)
Definition _reconnect : coro unit :=
  fun m =>
    match class m with
    | OrderlyPublicWsManager => for_each (keys m) do_subscribe m
    | OrderlyPrivateWsManager c =>
        for_each (keys m) (fun topic => _login c ;; do_subscribe topic) m
    end.

(** *** The read loop *)

(** What [wait_for(websocket.recv(), timeout)] yields. *)
Inductive recv_event : Type :=
| Frame (message : text)
| IdleTimeout
| Closed.

(** The [while True] loop of [_connect] on one connection; the connection
    is closed by the peer when its script ends. *)
Fixpoint read_loop (script : list recv_event) : coro unit :=
  match script with
  | [] => raise ConnectionClosed
  | Frame message :: script' =>
      _handle_heartbeat message ;;
      _handle_message message ;;
      read_loop script'
  | IdleTimeout :: _ => logger LogTimedOut
  | Closed :: _ => raise ConnectionClosed
  end.

Definition fresh_websocket : WebSocket := {| ws_open := true; ws_sent := [] |}.

Definition close_websocket (m : WsTopicManager) : WsTopicManager :=
  match websocket m with
  | Some ws => set_websocket (Some {| ws_open := false; ws_sent := ws_sent ws |}) m
  | None => m
  end.

(** The two [except] clauses of [_connect] and the end of the body of its
    [async for], which closes the connection. *)
Definition settle (r : outcome unit * WsTopicManager) : WsTopicManager :=
  match r with
  | (Return _, m') => close_websocket m'
  | (Raise ConnectionClosed, m') => close_websocket (add_log LogDisconnected m')
  | (Raise e, m') => close_websocket (add_log (LogException e) m')
  end.

(** The body of the [async for] of [_connect] for one connection. *)
Definition session (script : list recv_event) (m : WsTopicManager)
  : WsTopicManager :=
  settle ((_reconnect ;; logger LogConnected ;; read_loop script)
            (set_websocket (Some fresh_websocket) m)).

(** [_connect] over the first connections [websockets.connect] yields. *)
Fixpoint _connect (connections : list (list recv_event)) (m : WsTopicManager)
  : WsTopicManager :=
  match connections with
  | [] => m
  | script :: connections' => _connect connections' (session script m)
  end.

(** *** The methods as calls *)

(** A call of one method of the manager, and the state it leaves. *)
Inductive call : Type :=
| Subscribe (topic : json)
| DoSubscribe (topic : json)
| Request (symbol : string)
| Unsubscribe (topic : json)
| SendJson (message : json)
| HandleHeartbeat (message : text)
| HandleRequestOrderbook (message : json)
| HandleGeneralMessage (message : json)
| Recv (topic : json) (timeout : option Z) (waits : list (list json))
| HandleMessage (message : text)
| Login (c : credentials)
| Reconnect
| Connect (connections : list (list recv_event)).

Definition run (c : call) (m : WsTopicManager) : WsTopicManager :=
  match c with
  | Subscribe topic => snd (subscribe topic m)
  | DoSubscribe topic => snd (do_subscribe topic m)
  | Request symbol => snd (request symbol m)
  | Unsubscribe topic => snd (unsubscribe topic m)
  | SendJson message => snd (send_json message m)
  | HandleHeartbeat message => snd (_handle_heartbeat message m)
  | HandleRequestOrderbook message => snd (_handle_request_orderbook message m)
  | HandleGeneralMessage message => snd (_handle_general_message message m)
  | Recv topic timeout waits => snd (recv topic timeout waits m)
  | HandleMessage message => snd (_handle_message message m)
  | Login c => snd (_login c m)
  | Reconnect => snd (_reconnect m)
  | Connect connections => _connect connections m
  end.

End Ws.

(** ** The REST response handler ([orderly_sdk/rest.py], [exceptions.py]) *)

Module Rest.

(** An [aiohttp.ClientResponse]: the status, whether the content type is
    JSON (otherwise [response.json()] raises [ContentTypeError]) and the
    body. *)
Record ClientResponse : Type := {
  status : Z;
  json_content : bool;
  body : text
}.

(** [OrderlyAPIException.__init__] *)
Definition OrderlyAPIException_init (resp_json : json) (status_code : Z) : exn :=
  match resp_json with
  | JObj o =>
      let get k := match lookup k o with Some v => v | None => JNull end in
      OrderlyAPIException status_code (get "code") (get "message")
  | _ => OrderlyAPIException status_code JNull resp_json
  end.

(** [AsyncClient._handle_response]: the result and whether
    [logger.error] was called.  [response.json()] raises a [ValueError] on
    a body that is not JSON; [response.text()] is then that body. *)
Definition _handle_response (response : ClientResponse) : outcome json * bool :=
  let logged := negb (String.prefix "2" (str_of_int (status response))) in
  if json_content response then
    match body response with
    | Document v => (Return v, logged)
    | Malformed txt =>
        (Raise (OrderlyRequestException ("Invalid Response: " ++ txt)), logged)
    end
  else (Raise ContentTypeError, logged).

End Rest.

(** ** The REST client ([orderly_sdk/rest.py]) *)

Module Client.
Import Rest.

(** The four values of [method] that [_get], [_post], [_put] and [_delete]
    pass to [_request_api]. *)
Inductive http_method : Type := GET | POST | PUT | DELETE.

(** [method.upper()] *)
Definition upper (method : http_method) : string :=
  match method with
  | GET => "GET"
  | POST => "POST"
  | PUT => "PUT"
  | DELETE => "DELETE"
  end.

(** One record per [logger] call of the class. *)
Inductive log_record : Type :=
| LogRequestJson (body : json)              (* debug, [_request] *)
| LogRequestSignature (text : string)       (* debug, [_request] *)
| LogRequestUri (uri : string)              (* debug, [_request] *)
| LogResponse (response : ClientResponse).  (* error, [_handle_response] *)

(** The client object with the process state its methods touch (the
    logger's output and the clock, as for the WebSocket managers).
    [headers] is [self.headers]; [session_headers] is
    [self.session.headers], the headers the session adds to every request;
    both map header names to strings.  The header names the client uses
    never differ only by case, so the case-insensitive keys of the session's
    headers are not modelled. *)
Record AsyncClient : Type := {
  account_id : option string;
  orderly_key : option string;
  orderly_private_key : option (string -> string);
  endpoint : option string;
  headers : list (string * json);
  session_headers : list (string * json);
  response : option ClientResponse;
  log : list log_record;
  clock : nat -> Z;
  reads : nat
}.

Definition set_headers (h : list (string * json)) (c : AsyncClient) :=
  {| account_id := account_id c; orderly_key := orderly_key c;
     orderly_private_key := orderly_private_key c; endpoint := endpoint c;
     headers := h; session_headers := session_headers c;
     response := response c; log := log c; clock := clock c;
     reads := reads c |}.

Definition set_session_headers (h : list (string * json)) (c : AsyncClient) :=
  {| account_id := account_id c; orderly_key := orderly_key c;
     orderly_private_key := orderly_private_key c; endpoint := endpoint c;
     headers := headers c; session_headers := h;
     response := response c; log := log c; clock := clock c;
     reads := reads c |}.

Definition set_response (r : ClientResponse) (c : AsyncClient) :=
  {| account_id := account_id c; orderly_key := orderly_key c;
     orderly_private_key := orderly_private_key c; endpoint := endpoint c;
     headers := headers c; session_headers := session_headers c;
     response := Some r; log := log c; clock := clock c;
     reads := reads c |}.

Definition add_log (r : log_record) (c : AsyncClient) :=
  {| account_id := account_id c; orderly_key := orderly_key c;
     orderly_private_key := orderly_private_key c; endpoint := endpoint c;
     headers := headers c; session_headers := session_headers c;
     response := response c; log := log c ++ [r]; clock := clock c;
     reads := reads c |}.

Definition tick (c : AsyncClient) :=
  {| account_id := account_id c; orderly_key := orderly_key c;
     orderly_private_key := orderly_private_key c; endpoint := endpoint c;
     headers := headers c; session_headers := session_headers c;
     response := response c; log := log c; clock := clock c;
     reads := S (reads c) |}.

(** [str(x)] for an optional [str]. *)
Definition str_of_optional (x : option string) : string :=
  match x with
  | Some s => s
  | None => "None"
  end.

(** [_get_headers] *)
Definition _get_headers (key : option string) : list (string * json) :=
  let headers := [("Accept", JStr "application/json")] in
  match key with
  | Some k => if String.eqb k "" then headers
              else assign "orderly-key" (JStr k) headers
  | None => headers
  end.

(** [__init__], with [orderly_private_key] as for the private WebSocket
    manager. *)
Definition init (account key : option string)
    (private_key : option (string -> string)) (endpoint_url : option string)
    (clk : nat -> Z) : AsyncClient :=
  {| account_id := account; orderly_key := key;
     orderly_private_key := private_key; endpoint := endpoint_url;
     headers := []; session_headers := _get_headers key;
     response := None; log := []; clock := clk; reads := 0 |}.

(** [d.update(other)] on the items of two [dict]s. *)
Definition update (d other : list (string * json)) : list (string * json) :=
  fold_left (fun acc kv => assign (fst kv) (snd kv) acc) other d.

(** [if params:] and [if json:] on an optional [dict]. *)
Definition given (x : option json) : bool :=
  match x with
  | Some v => truthy v
  | None => false
  end.

Section Libraries.

(** [json.dumps], [urllib.parse.urlencode] on the items of a [dict] and
    [urlparse(uri).path]. *)
Variable dumps : json -> string.
Variable urlencode : list (string * json) -> string.
Variable url_path : string -> string.

(** The text [_request] signs. *)
Definition signature_str (ts : Z) (method : http_method) (uri : string)
    (params : option (list (string * json))) (body : option json) : string :=
  let json_str := match body with Some j => dumps j | None => "" end in
  let path := url_path uri in
  let path :=
    match params with
    | Some (p :: ps) => (path ++ "?" ++ urlencode (p :: ps))%string
    | _ => path
    end in
  (str_of_int ts ++ upper method ++ path ++ json_str)%string.

(** The [if signed:] block of [_request]. *)
Definition sign_request (method : http_method) (uri : string)
    (params : option (list (string * json))) (body : option json)
    (c : AsyncClient) : outcome unit * AsyncClient :=
  let ts := clock c (reads c) in
  let c := tick c in
  let c := match body with
           | Some j => add_log (LogRequestJson j) c
           | None => c
           end in
  let text := signature_str ts method uri params body in
  let c := add_log (LogRequestSignature text) c in
  match orderly_private_key c with
  | None => (Raise (AttributeError "orderly_private_key"), c)
  | Some sign =>
      let h := assign "orderly-signature" (JStr (sign text)) (headers c) in
      let h := match account_id c with
               | Some a => assign "orderly-account-id" (JStr a) h
               | None => h
               end in
      let h := assign "orderly-key"
                 (JStr ("ed25519:" ++ str_of_optional (orderly_key c))%string) h in
      let h := assign "orderly-timestamp" (JStr (str_of_int ts)) h in
      let h := assign "Content-Type"
                 (JStr (if given body then "application/json"
                        else "application/x-www-form-urlencoded")) h in
      let h := assign "Cache-Control" (JStr "no-cache") h in
      (Return tt,
       set_session_headers (update (session_headers c) h) (set_headers h c))
  end.

(** [_handle_response] as a method: the error log goes to the logger. *)
Definition handle (r : ClientResponse) (c : AsyncClient)
  : outcome json * AsyncClient :=
  let (result, logged) := _handle_response r in
  (result, if logged : bool then add_log (LogResponse r) c else c).

(** [_request]; [answer] is the response the server gives to the request
    the session sends. *)
Definition _request (method : http_method) (uri : string) (signed : bool)
    (params : option (list (string * json))) (body : option json)
    (answer : ClientResponse) (c : AsyncClient)
  : outcome json * AsyncClient :=
  let send c :=
    handle answer (set_response answer (add_log (LogRequestUri uri) c)) in
  if signed then
    match sign_request method uri params body c with
    | (Return _, c') => send c'
    | (Raise e, c') => (Raise e, c')
    end
  else send c.

End Libraries.

End Client.

(** ** The vocabulary of the statements *)

Module Wire.
Import Ws.

(** The items of a data frame [{topic, data}] of the wire protocol: a topic
    name, a payload and no [event]. *)
Definition is_data_frame (topic : string) (data : json)
    (o : list (string * json)) : Prop :=
  lookup "event" o = None /\
  lookup "topic" o = Some (JStr topic) /\
  lookup "data" o = Some data.

(** A data frame with its topic and payload named. *)
Definition data_frame : Type := string * json * list (string * json).


(** The frames as the read loop receives them, in arrival order. *)
Definition arrivals (fs : list data_frame) : list recv_event :=
  map (fun f => Frame (Document (JObj (snd f)))) fs.


(** One turn of the read loop on a frame. *)
Definition handle_frame (message : text) : coro unit :=
  (_handle_heartbeat message ;; _handle_message message)%coro.

(** A timeout with which [recv] waits for an item: [None], or a positive
    number of seconds. *)
Definition patient (timeout : option Z) : Prop :=
  match timeout with
  | Some s => (0 < s)%Z
  | None => True
  end.

(** The frames a private manager sends to replay the topics [ks]: a login
    with the next clock reading before each subscribe. *)
Fixpoint private_replay (id : string) (c : credentials)
    (sign : string -> string) (clk : nat -> Z) (n : nat) (ks : list json)
  : list json :=
  match ks with
  | [] => []
  | k :: ks' =>
      auth_frame id c sign (clk n) :: subscribe_frame id k
        :: private_replay id c sign clk (S n) ks'
  end.

(** The frames a public manager sends to replay the topics [ks]. *)
Definition public_replay (id : string) (ks : list json) : list json :=
  map (subscribe_frame id) ks.

(** The calls whose code writes to [self.queues] other than by [pop]:
    [subscribe] assigns, the others index the [defaultdict]. *)
Definition writes_registry (c : call) : Prop :=
  match c with
  | Subscribe _ | Recv _ _ _ | HandleRequestOrderbook _
  | HandleGeneralMessage _ | HandleMessage _ | Connect _ => True
  | _ => False
  end.

(** A coroutine that leaves the registry as it is, however it ends. *)
Definition keeps {A} (c : coro A) : Prop :=
  forall m, queues (snd (c m)) = queues m.

(** The registry of [m'] has the keys of [m], in order, and maybe more
    after them. *)
Definition extends (m m' : WsTopicManager) : Prop :=
  exists extra, keys m' = keys m ++ extra.

(** A coroutine that removes no key, however it ends. *)
Definition growing {A} (c : coro A) : Prop :=
  forall m, extends m (snd (c m)).

End Wire.
Import Wire.

(** ** The typed subscribe methods ([orderly_sdk/ws.py]) *)

(** [OrderlyPublicWsManager] *)
Module Public.
Import Ws.
Local Open Scope coro_scope.

Definition subscribe_bbos : coro unit :=
  subscribe (JStr "bbos") ;; do_subscribe (JStr "bbos").

Definition subscribe_trade (symbol : string) : coro unit :=
  let topic := JStr (symbol ++ "@trade") in
  subscribe topic ;; do_subscribe topic.

Definition subscribe_orderbook (symbol : string) : coro unit :=
  let topic := JStr (symbol ++ "@orderbook") in
  subscribe topic ;; do_subscribe topic.

(** [symbol] is optional; [None] and [""] are both false. *)
Definition subscribe_ticker (symbol : option string) : coro unit :=
  let topic :=
    match symbol with
    | Some s => if String.eqb s "" then JStr "24h_tickers"
                else JStr (s ++ "@24h_ticker")
    | None => JStr "24h_tickers"
    end in
  subscribe topic ;; do_subscribe topic.

Definition subscribe_kline (symbol interval : string) : coro unit :=
  let topic := JStr (symbol ++ "@kline_" ++ interval) in
  subscribe topic ;; do_subscribe topic.

End Public.

(** [OrderlyPrivateWsManager]; [c] is what its [__init__] stored. *)
Module Private.
Import Ws.
Local Open Scope coro_scope.

Definition subscribe_position (c : credentials) : coro unit :=
  subscribe (JStr "position") ;; _login c ;; do_subscribe (JStr "position").

Definition subscribe_balance (c : credentials) : coro unit :=
  subscribe (JStr "balance") ;; _login c ;; do_subscribe (JStr "balance").

Definition subscribe_order (c : credentials) : coro unit :=
  subscribe (JStr "order") ;; _login c ;; do_subscribe (JStr "order").

Definition subscribe_trade (c : credentials) : coro unit :=
  subscribe (JStr "trade") ;; _login c ;; do_subscribe (JStr "trade").

Definition subscribe_liquidation (c : credentials) : coro unit :=
  subscribe (JStr "liquidation") ;; _login c ;;
  do_subscribe (JStr "liquidation").

Definition subscribe_pnl (c : credentials) : coro unit :=
  subscribe (JStr "pnl") ;; _login c ;; do_subscribe (JStr "pnl").

End Private.

(** ** More vocabulary *)

Module Registry.
Import Ws.

(** No two entries of the registry have the same key, as in a [dict]. *)
Fixpoint unique (qs : list (json * list json)) : Prop :=
  match qs with
  | [] => True
  | (k, _) :: qs' => find k qs' = None /\ unique qs'
  end.

(** Every queue of a topic name in [m'] is the queue it was in [m] with
    items added at the back. *)
Definition appends (m m' : WsTopicManager) : Prop :=
  forall t, exists more,
    queue_of (JStr t) m' = queue_of (JStr t) m ++ more.

(** A coroutine that takes nothing off a queue, however it ends. *)
Definition appending {A} (c : coro A) : Prop :=
  forall m, appends m (snd (c m)).

(** The public typed subscribe methods with the topic each one names. *)
Definition public_methods (symbol interval : string)
  : list (coro unit * string) :=
  [(Public.subscribe_bbos, "bbos");
   (Public.subscribe_trade symbol, (symbol ++ "@trade")%string);
   (Public.subscribe_orderbook symbol, (symbol ++ "@orderbook")%string);
   (Public.subscribe_ticker None, "24h_tickers");
   (Public.subscribe_ticker (Some ""), "24h_tickers");
   (Public.subscribe_ticker (Some symbol),
    if String.eqb symbol "" then "24h_tickers"
    else (symbol ++ "@24h_ticker")%string);
   (Public.subscribe_kline symbol interval,
    (symbol ++ "@kline_" ++ interval)%string)].

(** The private typed subscribe methods with the topic each one names. *)
Definition private_methods (c : credentials) : list (coro unit * string) :=
  [(Private.subscribe_position c, "position");
   (Private.subscribe_balance c, "balance");
   (Private.subscribe_order c, "order");
   (Private.subscribe_trade c, "trade");
   (Private.subscribe_liquidation c, "liquidation");
   (Private.subscribe_pnl c, "pnl")].

End Registry.
Import Registry.

(** ** Sample objects *)

Module Sample.
Import Ws.

(** A public manager after [__init__]. *)
Definition public_manager : WsTopicManager :=
  init OrderlyPublicWsManager "WS_PUBLIC" ""
    "wss://ws-evm.orderly.org/ws/stream/" (fun _ => 0%Z).

(** A manager on a connection that has just been made. *)
Definition connected (m : WsTopicManager) : WsTopicManager :=
  set_websocket (Some fresh_websocket) m.

(** The same manager on a connection that has been closed. *)
Definition disconnected (m : WsTopicManager) : WsTopicManager :=
  set_websocket (Some {| ws_open := false; ws_sent := [] |}) m.

(** [ws.subscribe("bbos")] on a live connection. *)
Definition bbos_manager : WsTopicManager :=
  connected (snd (subscribe (JStr "bbos") public_manager)).

Definition account_credentials : credentials :=
  {| orderly_key := Some "key";
     orderly_secret := Some "secret";
     orderly_private_key := Some (fun data => ("signed:" ++ data)%string) |}.

(** A private manager with [position] and [balance] subscribed, on a live
    connection. *)
Definition account_manager : WsTopicManager :=
  connected
    (snd (subscribe (JStr "balance")
       (snd (subscribe (JStr "position")
          (init (OrderlyPrivateWsManager account_credentials) "WS_PRIVATE" ""
             "wss://ws-private-evm.orderly.org/v2/ws/private/stream/"
             (fun n => 1700000000000 + Z.of_nat n)%Z))))).

Definition price : json := JObj [("price", JStr "100.5")].
Definition quote : json := JObj [("bid", JStr "1")].

Definition trade_frame : list (string * json) :=
  [("topic", JStr "PERP_ETH_USDC@trade"); ("data", price)].

Definition bbos_frame : list (string * json) :=
  [("topic", JStr "bbos"); ("data", quote)].



Definition ping_frame : list (string * json) :=
  [("event", JStr "ping"); ("ts", JNum 1700000000000)].

Definition ping_frame_with_data : list (string * json) :=
  [("event", JStr "ping"); ("topic", JStr "bbos"); ("data", quote)].

(** A ping frame that has data and names no topic. *)
Definition ping_frame_without_topic : list (string * json) :=
  [("event", JStr "ping"); ("data", quote)].

Definition snapshot : list (string * json) :=
  [("symbol", JStr "PERP_ETH_USDC"); ("asks", JArr []); ("bids", JArr [])].

Definition orderbook_ack : list (string * json) :=
  [("id", JStr "WS_PUBLIC"); ("event", JStr "request");
   ("success", JBool true); ("ts", JNum 1700000000000);
   ("data", JObj snapshot)].

(** A successful [request] acknowledgment whose data is not an orderbook
    snapshot: it names no symbol. *)
Definition other_request_ack : list (string * json) :=
  [("id", JStr "WS_PUBLIC"); ("event", JStr "request");
   ("success", JBool true); ("ts", JNum 1700000000000);
   ("data", JObj [("rows", JArr [])])].

Definition subscribe_ack : list (string * json) :=
  [("id", JStr "WS_PUBLIC"); ("event", JStr "subscribe");
   ("success", JBool true); ("ts", JNum 1700000000000)].

Definition failed_ack : list (string * json) :=
  [("id", JStr "WS_PUBLIC"); ("event", JStr "subscribe");
   ("success", JBool false); ("errorMsg", JStr "invalid topic")].

Definition error_body : json :=
  JObj [("success", JBool false); ("code", JNum (-1003));
        ("message", JStr "invalid symbol")].

Definition error_response : Rest.ClientResponse :=
  {| Rest.status := 400; Rest.json_content := true;
     Rest.body := Document error_body |}.

End Sample.

(** ** Vocabulary for the REST client *)

Module Http.

(** Whether the test [_handle_response] makes on the text of status
    [100 + n] agrees with the status being outside 200..299. *)
Definition agrees (n : nat) : bool :=
  let status := (100 + Z.of_nat n)%Z in
  Bool.eqb (negb (String.prefix "2" (str_of_int status)))
           (negb ((200 <=? status)%Z && (status <=? 299)%Z)).

(** A signed client as [__init__] leaves it. *)
Definition client : Client.AsyncClient :=
  Client.init (Some "account") (Some "key")
    (Some (fun data => ("signed:" ++ data)%string))
    (Some "https://api.orderly.org")
    (fun n => 1700000000000 + Z.of_nat n)%Z.

(** A client with no secret. *)
Definition anonymous : Client.AsyncClient :=
  Client.init None None None (Some "https://api.orderly.org") (fun _ => 0%Z).

(** Stand-ins for the three library functions, for concrete runs. *)
Definition dumps (_ : json) : string := "{}".
Definition urlencode (_ : list (string * json)) : string := "a=1".
Definition url_path (_ : string) : string := "/v1/order".

Definition ok_response : Rest.ClientResponse :=
  {| Rest.status := 200; Rest.json_content := true;
     Rest.body := Document (JObj [("success", JBool true)]) |}.

End Http.

(** ** Properties *)

Import Ws.
Local Open Scope coro_scope.

(** *** The registry *)

Lemma key_eqb_str (k : json) (t : string) :
  key_eqb k (JStr t) = true -> k = JStr t.
Proof.
  destruct k; simpl; try discriminate.
  intros H. apply String.eqb_eq in H. now subst.
Qed.

Lemma key_eqb_refl (k : json) : hashable k = true -> key_eqb k k = true.
Proof.
  destruct k as [ | b | n | s | l | o ]; simpl; intros H; try discriminate.
  - reflexivity.
  - now destruct b.
  - apply Z.eqb_refl.
  - apply String.eqb_refl.
Qed.

Lemma store_missing (k : json) (q : list json) qs :
  find k qs = None -> store k q qs = qs ++ [(k, q)].
Proof.
  induction qs as [ | [k' q'] qs IH ]; simpl; intros H.
  - reflexivity.
  - destruct (key_eqb k' k); [ discriminate | ].
    now rewrite IH.
Qed.

Lemma find_store_same (k : json) (q : list json) qs :
  hashable k = true -> find k (store k q qs) = Some q.
Proof.
  intros Hk. induction qs as [ | [k' q'] qs IH ]; simpl.
  - now rewrite key_eqb_refl.
  - destruct (key_eqb k' k) eqn:E; simpl; rewrite E; auto.
Qed.

Lemma find_store_other (t t' : string) (q : list json) qs :
  t <> t' -> find (JStr t') (store (JStr t) q qs) = find (JStr t') qs.
Proof.
  intros Hne. induction qs as [ | [k' q'] qs IH ]; simpl.
  - destruct (String.eqb t t') eqn:E; [ | reflexivity ].
    apply String.eqb_eq in E. contradiction.
  - destruct (key_eqb k' (JStr t)) eqn:E; simpl.
    + apply key_eqb_str in E. subst k'. simpl.
      destruct (String.eqb t t') eqn:E'; [ | reflexivity ].
      apply String.eqb_eq in E'. contradiction.
    + now rewrite IH.
Qed.

Lemma keys_store (k : json) (q : list json) qs :
  map fst (store k q qs) =
  match find k qs with
  | Some _ => map fst qs
  | None => map fst qs ++ [k]
  end.
Proof.
  induction qs as [ | [k' q'] qs IH ]; simpl.
  - reflexivity.
  - destruct (key_eqb k' k); simpl.
    + reflexivity.
    + rewrite IH. now destruct (find k qs).
Qed.

Lemma set_queues_twice qs qs' (m : WsTopicManager) :
  set_queues qs (set_queues qs' m) = set_queues qs m.
Proof. reflexivity. Qed.

Lemma set_queues_same (m : WsTopicManager) : set_queues (queues m) m = m.
Proof. now destruct m. Qed.

Lemma store_app_last (k : json) (q q0 : list json) qs :
  hashable k = true -> find k qs = None ->
  store k q (qs ++ [(k, q0)]) = qs ++ [(k, q)].
Proof.
  intros Hk. induction qs as [ | [k' q'] qs IH ]; simpl; intros H.
  - now rewrite key_eqb_refl.
  - destruct (key_eqb k' k); [ discriminate | ].
    now rewrite IH.
Qed.

(** Putting an item on the queue of a topic name appends it to that queue,
    making the queue when the topic has none. *)
Lemma queues_put_str (t : string) (d : json) (m : WsTopicManager) :
  queues_put (JStr t) d m =
  (Return tt,
   set_queues (store (JStr t) (queue_of (JStr t) m ++ [d]) (queues m)) m).
Proof.
  unfold queues_put, bind, queues_getitem, modify, queue_of. simpl.
  destruct (find (JStr t) (queues m)) eqn:E; simpl.
  - reflexivity.
  - rewrite set_queues_twice.
    rewrite (store_app_last (JStr t) [d] [] (queues m) eq_refl E).
    now rewrite (store_missing _ _ _ E).
Qed.

Lemma queue_of_put_same (t : string) (q : list json) (m : WsTopicManager) :
  queue_of (JStr t) (set_queues (store (JStr t) q (queues m)) m) = q.
Proof.
  unfold queue_of. simpl. now rewrite find_store_same.
Qed.

Lemma queue_of_put_other (t t' : string) (q : list json) (m : WsTopicManager) :
  t <> t' ->
  queue_of (JStr t') (set_queues (store (JStr t) q (queues m)) m) =
  queue_of (JStr t') m.
Proof.
  intros H. unfold queue_of. simpl. now rewrite find_store_other.
Qed.

(** *** The dispatcher on data frames *)


Lemma handle_data_frame (t : string) (d : json) (o : list (string * json))
    (m : WsTopicManager) :
  is_data_frame t d o ->
  _handle_message (Document (JObj o)) m = queues_put (JStr t) d m.
Proof.
  intros (He & Ht & Hd).
  unfold _handle_message, dispatch_data, _handle_general_message,
    bind, lift, ret. simpl.
  now rewrite He, Hd, Ht.
Qed.

Lemma read_loop_frame (message : text) (script : list recv_event)
    (m : WsTopicManager) :
  read_loop (Frame message :: script) m =
  (handle_frame message ;; read_loop script) m.
Proof.
  simpl. unfold handle_frame, bind.
  destruct (_handle_heartbeat message m) as [[[] | e] m1]; [ | reflexivity ].
  now destruct (_handle_message message m1) as [[[] | e] m2].
Qed.


Lemma lookup_assign_same (k : string) (v : json) (o : list (string * json)) :
  lookup k (assign k v o) = Some v.
Proof.
  induction o as [ | [k' v'] o IH ]; simpl.
  - now rewrite String.eqb_refl.
  - destruct (String.eqb k' k) eqn:E; simpl; now rewrite E.
Qed.

Lemma lookup_assign_other (k k0 : string) (v : json) (o : list (string * json)) :
  k0 <> k -> lookup k0 (assign k v o) = lookup k0 o.
Proof.
  intros Hne. induction o as [ | [k' v'] o IH ]; simpl.
  - destruct (String.eqb k k0) eqn:E; [ | reflexivity ].
    apply String.eqb_eq in E. now subst.
  - destruct (String.eqb k' k) eqn:E; simpl.
    + apply String.eqb_eq in E. subst k'.
      destruct (String.eqb k k0) eqn:E'; [ | reflexivity ].
      apply String.eqb_eq in E'. now subst.
    + now rewrite IH.
Qed.

(** *** Control acknowledgments *)

(** C4, as the code has it: a frame with an [event] other than ping and
    pong raises the dispatch error when its [success] is false.  When
    [success] is true, the event is [request] and the frame has [data]: if
    the data is an object with a string [symbol] and the frame has a [ts],
    the data with that [ts] set in it goes to the back of the queue of
    [{symbol}@orderbook] and nothing else changes; if not, the dispatch
    raises ([TypeError] for data that is not an object or a symbol that is
    not a string, [KeyError] for a missing [symbol] or [ts]) and the
    manager is as it was.  Any other successful acknowledgment (no [data],
    or an event other than [request]) leaves the manager as it was. *)
Theorem control_acknowledgment_is_raised_routed_or_dropped
    (o : list (string * json)) (event success : json) (m : WsTopicManager) :
  lookup "event" o = Some event ->
  eq_str event "ping" || eq_str event "pong" = false ->
  lookup "success" o = Some success ->
  let r := _handle_message (Document (JObj o)) m in
  (truthy success = false -> r = (Raise (DispatchError (JObj o)), m))
  /\
  (truthy success = true ->
   forall d symbol ts,
     eq_str event "request" = true ->
     lookup "data" o = Some (JObj d) ->
     lookup "symbol" d = Some (JStr symbol) ->
     lookup "ts" o = Some ts ->
     let payload := JObj (assign "ts" ts d) in
     fst r = Return tt /\
     queue_of (JStr (symbol ++ "@orderbook")) (snd r) =
       queue_of (JStr (symbol ++ "@orderbook")) m ++ [payload] /\
     (forall t', t' <> (symbol ++ "@orderbook")%string ->
        queue_of (JStr t') (snd r) = queue_of (JStr t') m) /\
     websocket (snd r) = websocket m /\
     log (snd r) = log m /\
     lookup "ts" (assign "ts" ts d) = Some ts /\
     (forall k, k <> "ts" -> lookup k (assign "ts" ts d) = lookup k d))
  /\
  (truthy success = true ->
   lookup "data" o = None \/ eq_str event "request" = false ->
   r = (Return tt, m))
  /\
  (truthy success = true ->
   eq_str event "request" = true ->
   forall data,
     lookup "data" o = Some data ->
     (match data with JObj _ => False | _ => True end ->
      r = (Raise TypeError, m)) /\
     (forall d, data = JObj d -> lookup "symbol" d = None ->
      r = (Raise (KeyError (JStr "symbol")), m)) /\
     (forall d sv, data = JObj d -> lookup "symbol" d = Some sv ->
      match sv with JStr _ => False | _ => True end ->
      r = (Raise TypeError, m)) /\
     (forall d symbol, data = JObj d ->
      lookup "symbol" d = Some (JStr symbol) -> lookup "ts" o = None ->
      r = (Raise (KeyError (JStr "ts")), m))).
Proof.
  intros He Hnp Hs r. split; [ | split; [ | split ] ].
  - intros Hf. unfold r.
    unfold _handle_message, bind, lift, ret, raise. simpl.
    now rewrite He, Hnp, Hs, Hf.
  - intros Ht d symbol ts Hr Hd Hsym Hts payload.
    assert (Hrun : r = queues_put (JStr (symbol ++ "@orderbook")) payload m).
    { unfold r, _handle_message, _handle_request_orderbook, bind, lift, ret.
      simpl. rewrite He, Hnp, Hs, Ht, Hd. simpl. rewrite Hr. simpl.
      rewrite Hsym. simpl. rewrite Hts. reflexivity. }
    rewrite Hrun, queues_put_str. cbn [fst snd].
    split; [ reflexivity | ]. split; [ apply queue_of_put_same | ].
    split; [ intros t' Hne; apply queue_of_put_other; congruence | ].
    split; [ reflexivity | ]. split; [ reflexivity | ].
    split; [ apply lookup_assign_same | ].
    intros k Hk. now apply lookup_assign_other.
  - intros Ht [Hd | Hr]; unfold r;
      unfold _handle_message, bind, lift, ret; simpl;
      rewrite He, Hnp, Hs, Ht; simpl.
    + now rewrite Hd.
    + destruct (lookup "data" o); simpl; [ | reflexivity ].
      now rewrite Hr.
  - intros Ht Hr data Hd.
    assert (Hrun : r = _handle_request_orderbook (JObj o) m).
    { unfold r, _handle_message, bind, lift, ret. simpl.
      rewrite He, Hnp, Hs, Ht, Hd. simpl. now rewrite Hr. }
    rewrite Hrun. unfold _handle_request_orderbook, bind, lift, ret, raise.
    simpl. rewrite Hd. split; [ | split; [ | split ] ].
    + intros Hshape. destruct data; simpl; try reflexivity. contradiction.
    + intros d -> Hsym. simpl. now rewrite Hsym.
    + intros d sv -> Hsym Hshape. simpl. rewrite Hsym.
      destruct sv; simpl; try reflexivity. contradiction.
    + intros d symbol -> Hsym Hts. simpl. rewrite Hsym. simpl.
      now rewrite Hts.
Qed.

(** *** Frames for a topic with no queue *)

(** C5, as the code has it: a data frame for a topic with no queue makes
    the queue, at the end of the registry, with the payload as its only
    item, and the dispatch returns normally. *)
Theorem data_frame_for_unknown_topic_makes_its_queue
    (t : string) (d : json) (o : list (string * json)) (m : WsTopicManager) :
  is_data_frame t d o ->
  find (JStr t) (queues m) = None ->
  _handle_message (Document (JObj o)) m =
  (Return tt, set_queues (queues m ++ [(JStr t, [d])]) m).
Proof.
  intros Hf Hnone.
  rewrite (handle_data_frame t d o m Hf), queues_put_str.
  unfold queue_of. rewrite Hnone. simpl.
  now rewrite (store_missing _ _ _ Hnone).
Qed.

(** *** Heartbeats *)

Lemma queues_put_websocket (topic data : json) (m : WsTopicManager) :
  websocket (snd (queues_put topic data m)) = websocket m.
Proof.
  unfold queues_put, bind, queues_getitem, modify.
  destruct (hashable topic); [ | reflexivity ].
  now destruct (find topic (queues m)).
Qed.

Lemma dispatch_data_websocket (message : json) (m : WsTopicManager) :
  websocket (snd (dispatch_data message m)) = websocket m.
Proof.
  unfold dispatch_data, _handle_general_message, bind, lift, ret, raise.
  destruct (has "data" message) as [e | [ | ]]; try reflexivity.
  destruct (getitem message "data") as [e | data]; try reflexivity.
  destruct (getitem message "topic") as [e | topic]; try reflexivity.
  apply queues_put_websocket.
Qed.

(** C6, as the code has it: on an open connection a ping frame is answered
    by one pong, sent by [_handle_heartbeat]; [_handle_message] then treats
    the frame like one with no [event], sends nothing, and leaves the manager
    as it was when the frame has no [data]. *)
Theorem ping_is_answered_by_one_pong
    (o : list (string * json)) (m : WsTopicManager) (ws : WebSocket) :
  lookup "event" o = Some (JStr "ping") ->
  websocket m = Some ws ->
  ws_open ws = true ->
  let answered :=
    set_websocket
      (Some {| ws_open := true; ws_sent := ws_sent ws ++ [pong_frame] |}) m in
  _handle_heartbeat (Document (JObj o)) m = (Return tt, answered) /\
  _handle_message (Document (JObj o)) answered =
    dispatch_data (JObj o) answered /\
  websocket (snd (handle_frame (Document (JObj o)) m)) = websocket answered /\
  (lookup "data" o = None ->
   handle_frame (Document (JObj o)) m = (Return tt, answered)).
Proof.
  intros He Hws Hopen answered.
  assert (Hhb : _handle_heartbeat (Document (JObj o)) m = (Return tt, answered)).
  { unfold _handle_heartbeat, send_json, websocket_send, bind, lift, ret.
    simpl. rewrite He. simpl. now rewrite Hws, Hopen. }
  assert (Hhm : forall m0, _handle_message (Document (JObj o)) m0 =
                           dispatch_data (JObj o) m0).
  { intros m0. unfold _handle_message, bind, lift, ret. simpl.
    now rewrite He. }
  split; [ exact Hhb | ]. split; [ apply Hhm | ]. split.
  - unfold handle_frame, bind. rewrite Hhb, Hhm.
    apply dispatch_data_websocket.
  - intros Hd. unfold handle_frame, bind. rewrite Hhb, Hhm.
    unfold dispatch_data, bind, lift, ret. simpl. now rewrite Hd.
Qed.

(** *** [unsubscribe] *)

(** C10: on an open connection [unsubscribe] of a topic with no queue sends
    the unsubscribe frame and then raises the [KeyError] of the [pop], the
    frame staying sent; on a closed connection the send raises and the
    registry is as it was, the topic's queue still in it. *)
Theorem unsubscribe_sends_before_it_pops
    (t : string) (m : WsTopicManager) (ws : WebSocket) :
  websocket m = Some ws ->
  (ws_open ws = true -> find (JStr t) (queues m) = None ->
   unsubscribe (JStr t) m =
   (Raise (KeyError (JStr t)),
    set_websocket
      (Some {| ws_open := true;
               ws_sent := ws_sent ws ++ [unsubscribe_frame (_id m) (JStr t)] |})
      m))
  /\
  (ws_open ws = false ->
   unsubscribe (JStr t) m = (Raise ConnectionClosed, m) /\
   find (JStr t) (queues (snd (unsubscribe (JStr t) m))) =
   find (JStr t) (queues m)).
Proof.
  intros Hws. split.
  - intros Hopen Hnone.
    unfold unsubscribe, bind, websocket_send, queues_pop.
    rewrite Hws, Hopen. simpl. now rewrite Hnone.
  - intros Hclosed.
    assert (H : unsubscribe (JStr t) m = (Raise ConnectionClosed, m)).
    { unfold unsubscribe, bind, websocket_send. now rewrite Hws, Hclosed. }
    now rewrite H.
Qed.

(** *** [recv] *)

Lemma store_found (k : json) (q : list json) qs :
  find k qs = Some q -> store k q qs = qs.
Proof.
  induction qs as [ | [k' q'] qs IH ]; simpl; intros H.
  - discriminate.
  - destruct (key_eqb k' k).
    + now inversion H.
    + now rewrite IH.
Qed.

(** One turn of the loop of [recv] on a topic name. *)
Lemma recv_step (t : string) (timeout : option Z) (a : list json)
    (waits : list (list json)) (m : WsTopicManager) :
  recv (JStr t) timeout (a :: waits) m =
  let put x := set_queues (store (JStr t) x (queues m)) m in
  let take res q' :=
    if truthy res then (Done (Return res), put q')
    else recv (JStr t) timeout waits (put q') in
  match timeout with
  | Some s =>
      if (s <=? 0)%Z then
        recv (JStr t) timeout waits
          (add_log (LogNoMessage s) (put (queue_of (JStr t) m ++ a)))
      else
        match queue_of (JStr t) m ++ a with
        | [] => recv (JStr t) timeout waits (add_log (LogNoMessage s) (put []))
        | res :: q' => take res q'
        end
  | None =>
      match queue_of (JStr t) m ++ a with
      | [] => (Blocked, put [])
      | res :: q' => take res q'
      end
  end.
Proof.
  cbn [recv]. unfold queues_getitem, queue_of. cbn [hashable].
  destruct (find (JStr t) (queues m)) as [q | ] eqn:E.
  - assert (Hnil : q ++ a = [] ->
                   set_queues (store (JStr t) [] (queues m)) m = m).
    { intros Eq. apply app_eq_nil in Eq. destruct Eq as [-> _].
      now rewrite (store_found _ _ _ E), set_queues_same. }
    cbv zeta. destruct timeout as [s | ].
    + destruct (s <=? 0)%Z; [ reflexivity | ].
      destruct (q ++ a) as [ | res q' ] eqn:Eq; [ | reflexivity ].
      now rewrite Hnil.
    + destruct (q ++ a) as [ | res q' ] eqn:Eq; [ | reflexivity ].
      now rewrite Hnil.
  - assert (Hput : forall x,
              set_queues
                (store (JStr t) x
                   (queues (set_queues (queues m ++ [(JStr t, [])]) m)))
                (set_queues (queues m ++ [(JStr t, [])]) m) =
              set_queues (store (JStr t) x (queues m)) m).
    { intros x. cbn [queues set_queues].
      rewrite (store_app_last (JStr t) x [] (queues m) eq_refl E).
      now rewrite (store_missing _ _ _ E). }
    assert (Hnew : set_queues (queues m ++ [(JStr t, [])]) m =
                   set_queues (store (JStr t) [] (queues m)) m).
    { now rewrite (store_missing _ _ _ E). }
    cbv zeta. cbn [app]. destruct timeout as [s | ].
    + destruct (s <=? 0)%Z; [ now rewrite Hput | ].
      destruct a as [ | res q' ]; [ now rewrite Hnew | now rewrite Hput ].
    + destruct a as [ | res q' ]; [ now rewrite Hnew | now rewrite Hput ].
Qed.

(** What one turn of the loop of [recv] does to the manager, for any
    topic and timeout: after [self.queues[topic]], at most one assignment
    to the topic's queue and at most one log record. *)
Lemma recv_turn (topic : json) (timeout : option Z) (a : list json)
    (waits : list (list json)) (m : WsTopicManager) :
  match queues_getitem topic m with
  | (Raise e, m1) => recv topic timeout (a :: waits) m = (Done (Raise e), m1)
  | (Return q, m1) =>
      exists m2,
        (m2 = m1 \/ exists x, m2 = set_queues (store topic x (queues m1)) m1) /\
        (recv topic timeout (a :: waits) m = (Blocked, m2) \/
         (exists res, recv topic timeout (a :: waits) m =
                      (Done (Return res), m2)) \/
         recv topic timeout (a :: waits) m = recv topic timeout waits m2 \/
         (exists s, recv topic timeout (a :: waits) m =
                    recv topic timeout waits (add_log (LogNoMessage s) m2)))
  end.
Proof.
  cbn [recv]. destruct (queues_getitem topic m) as [[q | e] m1];
    [ | reflexivity ].
  cbv zeta.
  assert (Htake : forall res q',
            exists m2,
              (m2 = m1 \/
               exists x, m2 = set_queues (store topic x (queues m1)) m1) /\
              ((if truthy res
                then (Done (Return res),
                      set_queues (store topic q' (queues m1)) m1)
                else recv topic timeout waits
                       (set_queues (store topic q' (queues m1)) m1)) =
               (Blocked, m2) \/
               (exists res0,
                  (if truthy res
                   then (Done (Return res),
                         set_queues (store topic q' (queues m1)) m1)
                   else recv topic timeout waits
                          (set_queues (store topic q' (queues m1)) m1)) =
                  (Done (Return res0), m2)) \/
               (if truthy res
                then (Done (Return res),
                      set_queues (store topic q' (queues m1)) m1)
                else recv topic timeout waits
                       (set_queues (store topic q' (queues m1)) m1)) =
               recv topic timeout waits m2 \/
               (exists s,
                  (if truthy res
                   then (Done (Return res),
                         set_queues (store topic q' (queues m1)) m1)
                   else recv topic timeout waits
                          (set_queues (store topic q' (queues m1)) m1)) =
                  recv topic timeout waits (add_log (LogNoMessage s) m2)))).
  { intros res q'. exists (set_queues (store topic q' (queues m1)) m1).
    split; [ right; now exists q' | ].
    destruct (truthy res); [ right; left; now exists res | right; right; now left ]. }
  destruct timeout as [s | ].
  - destruct (s <=? 0)%Z.
    + exists (set_queues (store topic (q ++ a) (queues m1)) m1).
      split; [ right; now exists (q ++ a) | ].
      right. right. right. now exists s.
    + destruct (q ++ a) as [ | res q' ]; [ | apply Htake ].
      exists m1. split; [ now left | ]. right. right. right. now exists s.
  - destruct (q ++ a) as [ | res q' ]; [ | apply Htake ].
    exists m1. split; [ now left | now left ].
Qed.

(** One turn with a timeout that waits. *)
Lemma recv_step_patient (t : string) (timeout : option Z) (a : list json)
    (waits : list (list json)) (m : WsTopicManager) :
  patient timeout ->
  recv (JStr t) timeout (a :: waits) m =
  match queue_of (JStr t) m ++ a with
  | [] =>
      match timeout with
      | Some s =>
          recv (JStr t) timeout waits
            (add_log (LogNoMessage s)
               (set_queues (store (JStr t) [] (queues m)) m))
      | None => (Blocked, set_queues (store (JStr t) [] (queues m)) m)
      end
  | res :: q' =>
      let m2 := set_queues (store (JStr t) q' (queues m)) m in
      if truthy res then (Done (Return res), m2)
      else recv (JStr t) timeout waits m2
  end.
Proof.
  intros Hp. rewrite recv_step. cbv zeta.
  destruct timeout as [s | ]; [ | reflexivity ].
  cbn in Hp. apply Z.leb_gt in Hp. now rewrite Hp.
Qed.

Lemma recv_returns_queued_data (t : string) (timeout : option Z)
    (waits : list (list json)) :
  forall (m m' : WsTopicManager) (r : json),
    recv (JStr t) timeout waits m = (Done (Return r), m') ->
    truthy r = true /\ In r (queue_of (JStr t) m ++ concat waits).
Proof.
  induction waits as [ | a waits IH ]; intros m m' r H.
  - discriminate.
  - rewrite recv_step in H. cbv zeta in H. cbn [concat]. rewrite app_assoc.
    assert (Htake : forall res q',
              queue_of (JStr t) m ++ a = res :: q' ->
              (if truthy res
               then (Done (Return res),
                     set_queues (store (JStr t) q' (queues m)) m)
               else recv (JStr t) timeout waits
                      (set_queues (store (JStr t) q' (queues m)) m)) =
              (Done (Return r), m') ->
              truthy r = true /\
              In r ((queue_of (JStr t) m ++ a) ++ concat waits)).
    { intros res q' Eq Hr. rewrite Eq. destruct (truthy res) eqn:Et.
      - inversion Hr. subst. split; [ exact Et | now left ].
      - apply IH in Hr. destruct Hr as [Ht Hin]. split; [ exact Ht | ].
        rewrite queue_of_put_same in Hin. now right. }
    assert (Hnil : forall s,
              queue_of (JStr t) m ++ a = [] ->
              recv (JStr t) timeout waits
                (add_log (LogNoMessage s)
                   (set_queues (store (JStr t) [] (queues m)) m)) =
              (Done (Return r), m') ->
              truthy r = true /\
              In r ((queue_of (JStr t) m ++ a) ++ concat waits)).
    { intros s Eq Hr. rewrite Eq. apply IH in Hr.
      destruct Hr as [Ht Hin]. split; [ exact Ht | ].
      unfold add_log, queue_of in Hin. cbn [queues set_queues] in Hin.
      now rewrite find_store_same in Hin. }
    destruct timeout as [s | ].
    + destruct (s <=? 0)%Z.
      * apply IH in H. destruct H as [Ht Hin]. split; [ exact Ht | ].
        unfold add_log, queue_of in Hin. cbn [queues set_queues] in Hin.
        now rewrite find_store_same in Hin.
      * destruct (queue_of (JStr t) m ++ a) as [ | res q' ] eqn:Eq.
        -- now apply (Hnil s).
        -- now apply (Htake res q').
    + destruct (queue_of (JStr t) m ++ a) as [ | res q' ] eqn:Eq.
      * discriminate.
      * now apply (Htake res q').
Qed.


(** With nothing pending, [n] waits with no arrival are [n] timeouts: each
    logs once and the loop goes on. *)
Lemma recv_timeouts (t : string) (s : Z) (n : nat)
    (waits : list (list json)) :
  forall m : WsTopicManager,
    queue_of (JStr t) m = [] ->
    exists m',
      recv (JStr t) (Some s) (repeat [] n ++ waits) m =
      recv (JStr t) (Some s) waits m' /\
      log m' = log m ++ repeat (LogNoMessage s) n /\
      queue_of (JStr t) m' = [] /\
      websocket m' = websocket m.
Proof.
  induction n as [ | n IH ]; intros m Hq.
  - exists m. cbn. now rewrite app_nil_r.
  - cbn [repeat app]. rewrite recv_step, Hq. cbv zeta. cbn [app].
    set (m1 := add_log (LogNoMessage s)
                 (set_queues (store (JStr t) [] (queues m)) m)).
    assert (Hq1 : queue_of (JStr t) m1 = []).
    { unfold m1, queue_of. cbn [queues add_log set_queues].
      now rewrite find_store_same. }
    destruct (IH m1 Hq1) as (m' & Hrecv & Hlog & Hq' & Hws).
    exists m'. split; [ now destruct (s <=? 0)%Z | ].
    repeat split; auto.
    rewrite Hlog. unfold m1. cbn [log add_log set_queues].
    now rewrite <- app_assoc.
Qed.

(** With a timeout that is zero or negative no turn of the loop takes an
    item: every turn is a timeout, and what arrives stays queued. *)
Lemma recv_impatient (t : string) (s : Z) (waits : list (list json)) :
  (s <= 0)%Z ->
  forall m : WsTopicManager,
    exists m',
      recv (JStr t) (Some s) waits m = (Blocked, m') /\
      queue_of (JStr t) m' = queue_of (JStr t) m ++ concat waits /\
      log m' = log m ++ repeat (LogNoMessage s) (length waits) /\
      websocket m' = websocket m.
Proof.
  intros Hs. apply Z.leb_le in Hs.
  induction waits as [ | a waits IH ]; intros m.
  - exists m. cbn. now rewrite !app_nil_r.
  - rewrite recv_step. cbv zeta. rewrite Hs.
    set (m1 := add_log (LogNoMessage s)
                 (set_queues
                    (store (JStr t) (queue_of (JStr t) m ++ a) (queues m)) m)).
    assert (Hq1 : queue_of (JStr t) m1 = queue_of (JStr t) m ++ a).
    { unfold m1, queue_of at 1. cbn [queues add_log set_queues].
      now rewrite find_store_same. }
    destruct (IH m1) as (m' & Hrecv & Hq' & Hlog & Hws).
    exists m'. split; [ exact Hrecv | ]. split; [ | split ].
    + rewrite Hq', Hq1. cbn [concat]. now rewrite app_assoc.
    + rewrite Hlog. unfold m1. cbn [log add_log set_queues length repeat].
      now rewrite <- app_assoc.
    + rewrite Hws. reflexivity.
Qed.


(** C9: with a timeout that waits, an item of the topic's queue that is
    false ([{}], [""], [None], [0]) is taken off the queue and dropped, and
    the loop waits again; what [recv] returns later is another item, and
    with nothing else arriving the call stays in its loop although an item
    did arrive. *)
Theorem recv_drops_false_items
    (t : string) (timeout : option Z) (v : json) (m : WsTopicManager) :
  patient timeout ->
  truthy v = false ->
  (forall a q waits,
     queue_of (JStr t) m ++ a = v :: q ->
     recv (JStr t) timeout (a :: waits) m =
     recv (JStr t) timeout waits
       (set_queues (store (JStr t) q (queues m)) m))
  /\
  (forall q waits r m',
     queue_of (JStr t) m = v :: q ->
     recv (JStr t) timeout waits m = (Done (Return r), m') ->
     truthy r = true /\ In r (q ++ concat waits))
  /\
  (queue_of (JStr t) m = [v] ->
   forall n, exists m',
     recv (JStr t) timeout (repeat [] (S n)) m = (Blocked, m') /\
     queue_of (JStr t) m' = [] /\
     log m' = log m ++ match timeout with
                       | Some s => repeat (LogNoMessage s) n
                       | None => []
                       end).
Proof.
  intros Hp Hv. split; [ | split ].
  - intros a q waits Hq.
    rewrite (recv_step_patient t timeout _ _ _ Hp), Hq. cbv zeta.
    now rewrite Hv.
  - intros q waits r m' Hq H.
    destruct waits as [ | a waits ]; [ discriminate | ].
    rewrite (recv_step_patient t timeout _ _ _ Hp), Hq in H.
    cbn [app] in H. cbv zeta in H.
    rewrite Hv in H. apply recv_returns_queued_data in H.
    rewrite queue_of_put_same in H. cbn [concat].
    now rewrite app_assoc.
  - intros Hq n. cbn [repeat].
    rewrite (recv_step_patient t timeout _ _ _ Hp), Hq. cbn [app]. cbv zeta.
    rewrite Hv.
    set (m1 := set_queues (store (JStr t) [] (queues m)) m).
    assert (Hq1 : queue_of (JStr t) m1 = []) by apply queue_of_put_same.
    destruct timeout as [s | ].
    + destruct (recv_timeouts t s n [] m1 Hq1)
        as (m' & Hrecv & Hlog & Hq' & _).
      exists m'. rewrite app_nil_r in Hrecv. repeat split; auto.
    + destruct n as [ | n ].
      * exists m1. cbn. rewrite app_nil_r. repeat split; auto.
      * cbn [repeat]. rewrite (recv_step_patient t None _ _ _ I), Hq1.
        cbn [app].
        exists (set_queues (store (JStr t) [] (queues m1)) m1).
        split; [ reflexivity | ]. split; [ apply queue_of_put_same | ].
        cbn. now rewrite app_nil_r.
Qed.

(** *** Coroutines that leave the registry alone *)

Lemma keeps_ret {A} (a : A) : keeps (ret a).
Proof. now intros m. Qed.

Lemma keeps_raise {A} (e : exn) : keeps (@raise A e).
Proof. now intros m. Qed.

Lemma keeps_lift {A} (r : exn + A) : keeps (lift r).
Proof. destruct r; [ apply keeps_raise | apply keeps_ret ]. Qed.

Lemma keeps_bind {A B} (c : coro A) (k : A -> coro B) :
  keeps c -> (forall a, keeps (k a)) -> keeps (bind c k).
Proof.
  intros Hc Hk m. unfold bind. specialize (Hc m).
  destruct (c m) as [[a | e] m1]; simpl in *.
  - now rewrite Hk.
  - exact Hc.
Qed.

Lemma keeps_logger (r : log_record) : keeps (logger r).
Proof. now intros m. Qed.

Lemma keeps_websocket_send (frame : json) : keeps (websocket_send frame).
Proof.
  intros m. unfold websocket_send.
  destruct (websocket m) as [ws | ]; [ | reflexivity ].
  now destruct (ws_open ws).
Qed.

Lemma keeps_send_json (message : json) : keeps (send_json message).
Proof.
  unfold send_json. apply keeps_bind; [ apply keeps_lift | ].
  intros b. apply keeps_bind; [ | intros _; apply keeps_websocket_send ].
  destruct b; [ | apply keeps_ret ].
  apply keeps_bind; [ apply keeps_lift | ].
  intros event. destruct (negb (eq_str event "pong"));
    [ apply keeps_logger | apply keeps_ret ].
Qed.

Lemma keeps_do_subscribe (topic : json) : keeps (do_subscribe topic).
Proof. intros m. unfold do_subscribe. apply keeps_send_json. Qed.

Lemma keeps_request (symbol : string) : keeps (request symbol).
Proof. intros m. unfold request. apply keeps_send_json. Qed.

Lemma keeps_login (c : credentials) : keeps (_login c).
Proof.
  intros m. unfold _login.
  destruct (orderly_private_key c) as [sign | ]; [ | reflexivity ].
  now rewrite keeps_send_json.
Qed.

Lemma keeps_for_each {A} (xs : list A) (body : A -> coro unit) :
  (forall x, keeps (body x)) -> keeps (for_each xs body).
Proof.
  intros Hb. induction xs as [ | x xs IH ]; simpl.
  - apply keeps_ret.
  - apply keeps_bind; [ apply Hb | intros _; exact IH ].
Qed.

Lemma keeps_reconnect : keeps _reconnect.
Proof.
  intros m. unfold _reconnect. destruct (class m) as [ | c ].
  - apply keeps_for_each. apply keeps_do_subscribe.
  - apply keeps_for_each. intros topic.
    apply keeps_bind; [ apply keeps_login | intros _; apply keeps_do_subscribe ].
Qed.

Lemma keeps_handle_heartbeat (message : text) : keeps (_handle_heartbeat message).
Proof.
  unfold _handle_heartbeat. apply keeps_bind; [ apply keeps_lift | ].
  intros msg. apply keeps_bind; [ apply keeps_lift | ].
  intros b. destruct b; [ | apply keeps_ret ].
  apply keeps_bind; [ apply keeps_lift | ].
  intros event. destruct (eq_str event "ping");
    [ apply keeps_send_json | apply keeps_ret ].
Qed.

(** *** What a reconnect sends *)

Lemma do_subscribe_open (topic : json) (m : WsTopicManager) (ws : WebSocket) :
  websocket m = Some ws -> ws_open ws = true ->
  do_subscribe topic m =
  (Return tt,
   set_websocket
     (Some {| ws_open := true;
              ws_sent := ws_sent ws ++ [subscribe_frame (_id m) topic] |})
     (add_log (LogSending (subscribe_frame (_id m) topic)) m)).
Proof.
  intros Hws Hopen.
  unfold do_subscribe, send_json, websocket_send, bind, lift, ret, logger,
    modify. simpl.
  now rewrite Hws, Hopen.
Qed.

Lemma login_open (c : credentials) (sign : string -> string)
    (m : WsTopicManager) (ws : WebSocket) :
  orderly_private_key c = Some sign ->
  websocket m = Some ws -> ws_open ws = true ->
  let frame := auth_frame (_id m) c sign (clock m (reads m)) in
  _login c m =
  (Return tt,
   set_websocket
     (Some {| ws_open := true; ws_sent := ws_sent ws ++ [frame] |})
     (add_log (LogSending frame) (tick m))).
Proof.
  intros Hkey Hws Hopen frame.
  unfold _login, send_json, websocket_send, bind, lift, ret, logger, modify.
  rewrite Hkey. simpl. now rewrite Hws, Hopen.
Qed.

Lemma public_replay_open (ks : list json) :
  forall (m : WsTopicManager) (ws : WebSocket),
    websocket m = Some ws -> ws_open ws = true ->
    exists m',
      for_each ks do_subscribe m = (Return tt, m') /\
      websocket m' =
        Some {| ws_open := true;
                ws_sent := ws_sent ws ++ public_replay (_id m) ks |} /\
      queues m' = queues m.
Proof.
  induction ks as [ | k ks IH ]; intros m ws Hws Hopen.
  - exists m. cbn. rewrite app_nil_r. destruct ws as [o s]. simpl in *.
    subst o. auto.
  - cbn [for_each]. unfold bind. rewrite (do_subscribe_open k m ws Hws Hopen).
    edestruct IH as (m' & Hrun & Hsent & Hq);
      [ | | exists m'; split; [ exact Hrun | split ] ].
    + reflexivity.
    + reflexivity.
    + rewrite Hsent. cbn. now rewrite <- app_assoc.
    + exact Hq.
Qed.

Lemma private_replay_open (c : credentials) (sign : string -> string)
    (ks : list json) :
  orderly_private_key c = Some sign ->
  forall (m : WsTopicManager) (ws : WebSocket),
    websocket m = Some ws -> ws_open ws = true ->
    exists m',
      for_each ks (fun topic => _login c ;; do_subscribe topic) m =
        (Return tt, m') /\
      websocket m' =
        Some {| ws_open := true;
                ws_sent := ws_sent ws ++
                  private_replay (_id m) c sign (clock m) (reads m) ks |} /\
      queues m' = queues m.
Proof.
  intros Hkey. induction ks as [ | k ks IH ]; intros m ws Hws Hopen.
  - exists m. cbn. rewrite app_nil_r. destruct ws as [o s]. simpl in *.
    subst o. auto.
  - cbn [for_each]. unfold bind at 1 2.
    rewrite (login_open c sign m ws Hkey Hws Hopen). cbv zeta.
    erewrite do_subscribe_open; [ | reflexivity | reflexivity ].
    edestruct IH as (m' & Hrun & Hsent & Hq);
      [ | | exists m'; split; [ exact Hrun | split ] ].
    + reflexivity.
    + reflexivity.
    + rewrite Hsent. cbn. now rewrite <- !app_assoc.
    + exact Hq.
Qed.

(** *** Coroutines that remove no key *)

Lemma extends_refl (m : WsTopicManager) : extends m m.
Proof. exists []. now rewrite app_nil_r. Qed.

Lemma extends_trans (m1 m2 m3 : WsTopicManager) :
  extends m1 m2 -> extends m2 m3 -> extends m1 m3.
Proof.
  intros [e1 H1] [e2 H2]. exists (e1 ++ e2).
  now rewrite H2, H1, app_assoc.
Qed.

Lemma extends_same_queues (m m' : WsTopicManager) :
  queues m' = queues m -> extends m m'.
Proof. intros H. exists []. unfold keys. now rewrite H, app_nil_r. Qed.

Lemma extends_store (k : json) (q : list json) (m : WsTopicManager) :
  extends m (set_queues (store k q (queues m)) m).
Proof.
  unfold extends, keys. cbn [queues set_queues]. rewrite keys_store.
  destruct (find k (queues m)).
  - exists []. now rewrite app_nil_r.
  - now exists [k].
Qed.

Lemma keeps_growing {A} (c : coro A) : keeps c -> growing c.
Proof. intros H m. apply extends_same_queues, H. Qed.

Lemma growing_bind {A B} (c : coro A) (k : A -> coro B) :
  growing c -> (forall a, growing (k a)) -> growing (bind c k).
Proof.
  intros Hc Hk m. unfold bind. specialize (Hc m).
  destruct (c m) as [[a | e] m1]; simpl in *.
  - eapply extends_trans; [ exact Hc | apply Hk ].
  - exact Hc.
Qed.

Lemma growing_lift {A} (r : exn + A) : growing (lift r).
Proof. apply keeps_growing, keeps_lift. Qed.

Lemma growing_queues_getitem (topic : json) : growing (queues_getitem topic).
Proof.
  intros m. unfold queues_getitem.
  destruct (hashable topic); [ | apply extends_refl ].
  destruct (find topic (queues m)); [ apply extends_refl | ].
  exists [topic]. unfold keys. cbn [queues set_queues snd].
  now rewrite map_app.
Qed.

Lemma growing_queues_put (topic data : json) : growing (queues_put topic data).
Proof.
  unfold queues_put. apply growing_bind; [ apply growing_queues_getitem | ].
  intros q m. apply extends_store.
Qed.

Lemma growing_subscribe (topic : json) : growing (subscribe topic).
Proof.
  intros m. unfold subscribe.
  destruct (hashable topic); [ apply extends_store | apply extends_refl ].
Qed.

Lemma growing_handle_request_orderbook (message : json) :
  growing (_handle_request_orderbook message).
Proof.
  unfold _handle_request_orderbook.
  repeat (apply growing_bind; [ apply growing_lift | intros ? ]).
  apply growing_queues_put.
Qed.

Lemma growing_handle_general_message (message : json) :
  growing (_handle_general_message message).
Proof.
  unfold _handle_general_message.
  repeat (apply growing_bind; [ apply growing_lift | intros ? ]).
  apply growing_queues_put.
Qed.

Lemma growing_dispatch_data (message : json) : growing (dispatch_data message).
Proof.
  unfold dispatch_data. apply growing_bind; [ apply growing_lift | ].
  intros [ | ];
    [ apply growing_handle_general_message | apply keeps_growing, keeps_ret ].
Qed.

Lemma growing_handle_message (message : text) : growing (_handle_message message).
Proof.
  unfold _handle_message.
  apply growing_bind; [ apply growing_lift | intros msg ].
  apply growing_bind; [ apply growing_lift | intros [ | ] ];
    [ | apply growing_dispatch_data ].
  apply growing_bind; [ apply growing_lift | intros event ].
  destruct (negb (eq_str event "ping" || eq_str event "pong"));
    [ | apply growing_dispatch_data ].
  apply growing_bind; [ apply growing_lift | intros success ].
  destruct (truthy success); [ | apply keeps_growing, keeps_raise ].
  apply growing_bind; [ apply growing_lift | intros [ | ] ];
    [ | apply keeps_growing, keeps_ret ].
  apply growing_bind; [ apply growing_lift | intros event' ].
  destruct (eq_str event' "request");
    [ apply growing_handle_request_orderbook | apply keeps_growing, keeps_ret ].
Qed.

Lemma growing_recv (topic : json) (timeout : option Z)
    (waits : list (list json)) :
  forall m, extends m (snd (recv topic timeout waits m)).
Proof.
  induction waits as [ | a waits IH ]; intros m.
  - apply extends_refl.
  - pose proof (growing_queues_getitem topic m) as Hg.
    pose proof (recv_turn topic timeout a waits m) as Ht.
    destruct (queues_getitem topic m) as [[q | e] m1]; cbn [snd] in Hg;
      [ | now rewrite Ht ].
    destruct Ht as (m2 & Hm2 & Hr).
    assert (H2 : extends m m2).
    { eapply extends_trans; [ exact Hg | ].
      destruct Hm2 as [-> | [x ->]];
        [ apply extends_refl | apply extends_store ]. }
    destruct Hr as [Hr | [[res Hr] | [Hr | [s Hr]]]]; rewrite Hr.
    + exact H2.
    + exact H2.
    + eapply extends_trans; [ exact H2 | apply IH ].
    + eapply extends_trans; [ exact H2 | ].
      eapply extends_trans; [ | apply IH ].
      now apply extends_same_queues.
Qed.

Lemma growing_read_loop (script : list recv_event) : growing (read_loop script).
Proof.
  induction script as [ | [message | | ] script IH ]; cbn [read_loop].
  - apply keeps_growing, keeps_raise.
  - apply growing_bind;
      [ apply keeps_growing, keeps_handle_heartbeat | intros _ ].
    apply growing_bind; [ apply growing_handle_message | intros _; exact IH ].
  - apply keeps_growing, keeps_logger.
  - apply keeps_growing, keeps_raise.
Qed.

Lemma extends_close_websocket (m : WsTopicManager) :
  extends m (close_websocket m).
Proof.
  apply extends_same_queues. unfold close_websocket.
  now destruct (websocket m).
Qed.

Lemma extends_settle (r : outcome unit * WsTopicManager) :
  extends (snd r) (settle r).
Proof.
  destruct r as [[[] | e] m]; cbn [snd settle].
  - apply extends_close_websocket.
  - destruct e;
      (eapply extends_trans; [ | apply extends_close_websocket ]);
      now apply extends_same_queues.
Qed.

Lemma extends_session (script : list recv_event) (m : WsTopicManager) :
  extends m (session script m).
Proof.
  unfold session.
  eapply extends_trans; [ | apply extends_settle ].
  eapply extends_trans;
    [ apply (extends_same_queues m (set_websocket (Some fresh_websocket) m));
      reflexivity | ].
  apply growing_bind; [ apply keeps_growing, keeps_reconnect | intros _ ].
  apply growing_bind; [ apply keeps_growing, keeps_logger | intros _ ].
  apply growing_read_loop.
Qed.

Lemma extends_connect (connections : list (list recv_event)) :
  forall m, extends m (_connect connections m).
Proof.
  induction connections as [ | script connections IH ]; intros m; cbn.
  - apply extends_refl.
  - eapply extends_trans; [ apply extends_session | apply IH ].
Qed.

Lemma keys_remove (k : json) qs : incl (map fst (remove k qs)) (map fst qs).
Proof.
  induction qs as [ | [k' q'] qs IH ]; simpl.
  - apply incl_refl.
  - destruct (key_eqb k' k); simpl.
    + apply incl_tl, incl_refl.
    + apply incl_cons; [ now left | now apply incl_tl ].
Qed.

(** Every call but [unsubscribe] keeps the keys of the registry, in order. *)
Lemma run_extends (c : call) (m : WsTopicManager) :
  (forall t, c <> Unsubscribe t) -> extends m (run c m).
Proof.
  intros Hc. destruct c; cbn [run].
  - apply growing_subscribe.
  - apply keeps_growing, keeps_do_subscribe.
  - apply keeps_growing, keeps_request.
  - now contradiction (Hc topic).
  - apply keeps_growing, keeps_send_json.
  - apply keeps_growing, keeps_handle_heartbeat.
  - apply growing_handle_request_orderbook.
  - apply growing_handle_general_message.
  - apply growing_recv.
  - apply growing_handle_message.
  - apply keeps_growing, keeps_login.
  - apply keeps_growing, keeps_reconnect.
  - apply extends_connect.
Qed.

(** The calls that do not write to the registry add no key. *)
Lemma run_adds_nothing (c : call) (m : WsTopicManager) :
  ~ writes_registry c -> incl (keys (run c m)) (keys m).
Proof.
  intros Hc. unfold keys.
  destruct c; cbn [run writes_registry] in *; try tauto.
  - rewrite keeps_do_subscribe. apply incl_refl.
  - rewrite keeps_request. apply incl_refl.
  - unfold unsubscribe, bind.
    pose proof (keeps_websocket_send (unsubscribe_frame (_id m) topic) m) as Hk.
    destruct (websocket_send (unsubscribe_frame (_id m) topic) m)
      as [[[] | e] m1]; cbn [snd] in *; rewrite <- Hk.
    + unfold queues_pop. destruct (hashable topic); [ | apply incl_refl ].
      destruct (find topic (queues m1)); [ | apply incl_refl ].
      apply keys_remove.
    + apply incl_refl.
  - rewrite keeps_send_json. apply incl_refl.
  - rewrite keeps_handle_heartbeat. apply incl_refl.
  - rewrite keeps_login. apply incl_refl.
  - rewrite keeps_reconnect. apply incl_refl.
Qed.

(** *** Subscriptions across reconnects *)

(** C1, as the code has it: [_reconnect] leaves the registry as it is
    however it ends; on an open connection the public manager sends one
    subscribe frame per key of the registry, in order, and the private
    manager a login with a new clock reading before each of them; every
    connection of [_connect] starts with that replay on its new socket; no
    call but [unsubscribe] removes a key; and a key is added by [subscribe]
    or by a call that indexes the [defaultdict] ([recv] and the dispatch of
    a frame), never by a reconnect. *)
Theorem registry_survives_reconnects :
  (forall m, queues (snd (_reconnect m)) = queues m)
  /\
  (forall m ws,
     class m = OrderlyPublicWsManager ->
     websocket m = Some ws -> ws_open ws = true ->
     exists m',
       _reconnect m = (Return tt, m') /\
       websocket m' =
         Some {| ws_open := true;
                 ws_sent := ws_sent ws ++ public_replay (_id m) (keys m) |} /\
       queues m' = queues m)
  /\
  (forall m ws c sign,
     class m = OrderlyPrivateWsManager c ->
     orderly_private_key c = Some sign ->
     websocket m = Some ws -> ws_open ws = true ->
     exists m',
       _reconnect m = (Return tt, m') /\
       websocket m' =
         Some {| ws_open := true;
                 ws_sent := ws_sent ws ++
                   private_replay (_id m) c sign (clock m) (reads m) (keys m) |} /\
       queues m' = queues m)
  /\
  (forall script m m',
     _reconnect (set_websocket (Some fresh_websocket) m) = (Return tt, m') ->
     session script m = settle (read_loop script (add_log LogConnected m')))
  /\
  (forall c m k,
     In k (keys m) -> ~ In k (keys (run c m)) -> exists t, c = Unsubscribe t)
  /\
  (forall c m k,
     ~ In k (keys m) -> In k (keys (run c m)) -> writes_registry c).
Proof.
  split; [ | split; [ | split; [ | split; [ | split ] ] ] ].
  - apply keeps_reconnect.
  - intros m ws Hc Hws Hopen. unfold _reconnect. rewrite Hc.
    now apply public_replay_open.
  - intros m ws c sign Hc Hkey Hws Hopen. unfold _reconnect. rewrite Hc.
    now apply private_replay_open.
  - intros script m m' H. unfold session, bind. rewrite H. reflexivity.
  - intros c m k Hin Hout.
    assert (D : (exists t, c = Unsubscribe t) \/ (forall t, c <> Unsubscribe t)).
    { destruct c;
        first [ left; eexists; reflexivity | right; intros t; discriminate ]. }
    destruct D as [D | D]; [ exact D | ].
    exfalso. apply Hout. destruct (run_extends c m D) as [extra He].
    rewrite He. apply in_or_app. now left.
  - intros c m k Hout Hin.
    destruct c; cbn [writes_registry]; try exact I; exfalso; apply Hout;
      (eapply run_adds_nothing; [ | exact Hin ]); cbn; tauto.
Qed.

(** *** What the dispatch of one frame can do *)

Lemma queues_put_quiet (topic data : json) (m : WsTopicManager) :
  websocket (snd (queues_put topic data m)) = websocket m /\
  log (snd (queues_put topic data m)) = log m /\
  (forall e, fst (queues_put topic data m) = Raise e ->
             snd (queues_put topic data m) = m).
Proof.
  unfold queues_put, bind, queues_getitem, modify.
  destruct (hashable topic).
  - destruct (find topic (queues m)); cbn; repeat split; discriminate.
  - cbn. repeat split.
Qed.

(** [_handle_message] raises and changes nothing, or returns and changes
    nothing, or is one [put] on one queue. *)
Lemma handle_message_cases (message : text) (m : WsTopicManager) :
  (exists e, _handle_message message m = (Raise e, m)) \/
  _handle_message message m = (Return tt, m) \/
  (exists topic data, _handle_message message m = queues_put topic data m).
Proof.
  unfold _handle_message, dispatch_data, _handle_request_orderbook,
    _handle_general_message, bind, lift, ret, raise.
  destruct (loads message) as [e | msg]; [ left; now exists e | ].
  destruct (has "event" msg) as [e | [ | ]]; [ left; now exists e | | ].
  - destruct (getitem msg "event") as [e | event]; [ left; now exists e | ].
    destruct (negb (eq_str event "ping" || eq_str event "pong")).
    + destruct (getitem msg "success") as [e | success];
        [ left; now exists e | ].
      destruct (truthy success); [ | left; now eexists ].
      destruct (has "data" msg) as [e | [ | ]];
        [ left; now exists e | | right; now left ].
      destruct (eq_str event "request"); [ | right; now left ].
      destruct (getitem msg "data") as [e | d]; [ left; now exists e | ].
      destruct (getitem d "symbol") as [e | symbol]; [ left; now exists e | ].
      destruct (add_str symbol "@orderbook") as [e | topic];
        [ left; now exists e | ].
      destruct (getitem msg "ts") as [e | ts]; [ left; now exists e | ].
      destruct (setitem d "ts" ts) as [e | d']; [ left; now exists e | ].
      right. right. now exists topic, d'.
    + destruct (has "data" msg) as [e | [ | ]];
        [ left; now exists e | | right; now left ].
      destruct (getitem msg "data") as [e | d]; [ left; now exists e | ].
      destruct (getitem msg "topic") as [e | topic]; [ left; now exists e | ].
      right. right. now exists topic, d.
  - destruct (has "data" msg) as [e | [ | ]];
      [ left; now exists e | | right; now left ].
    destruct (getitem msg "data") as [e | d]; [ left; now exists e | ].
    destruct (getitem msg "topic") as [e | topic]; [ left; now exists e | ].
    right. right. now exists topic, d.
Qed.

(** A frame on which [_handle_message] raises leaves the manager as it
    was. *)
Lemma handle_message_failure (message : text) (e : exn)
    (m m' : WsTopicManager) :
  _handle_message message m = (Raise e, m') -> m' = m.
Proof.
  intros H.
  destruct (handle_message_cases message m)
    as [[e' H'] | [H' | (topic & data & H')]]; rewrite H' in H.
  - now inversion H.
  - discriminate H.
  - destruct (queues_put_quiet topic data m) as (_ & _ & Hq).
    rewrite H in Hq. exact (Hq e eq_refl).
Qed.

(** The pong as [send_json] sends it: it is not logged. *)
Lemma send_pong (m : WsTopicManager) :
  send_json pong_frame m = websocket_send pong_frame m.
Proof. reflexivity. Qed.

(** [_handle_heartbeat] raises and changes nothing, or returns and changes
    nothing, or sends the pong on the open connection. *)
Lemma handle_heartbeat_cases (message : text) (m : WsTopicManager) :
  (exists e, _handle_heartbeat message m = (Raise e, m)) \/
  _handle_heartbeat message m = (Return tt, m) \/
  (exists ws,
     websocket m = Some ws /\ ws_open ws = true /\
     _handle_heartbeat message m =
       (Return tt,
        set_websocket
          (Some {| ws_open := true; ws_sent := ws_sent ws ++ [pong_frame] |})
          m)).
Proof.
  unfold _handle_heartbeat, bind, lift, ret, raise.
  destruct (loads message) as [e | msg]; [ left; now exists e | ].
  destruct (has "event" msg) as [e | [ | ]];
    [ left; now exists e | | right; now left ].
  destruct (getitem msg "event") as [e | event]; [ left; now exists e | ].
  destruct (eq_str event "ping"); [ | right; now left ].
  rewrite send_pong. unfold websocket_send.
  destruct (websocket m) as [ws | ] eqn:Hws; [ | left; now eexists ].
  destruct (ws_open ws) eqn:Hopen; [ | left; now eexists ].
  right. right. now exists ws.
Qed.

(** A frame on which the read loop raises has at most sent its pong. *)
Lemma handle_frame_failure (message : text) (e : exn)
    (m m' : WsTopicManager) :
  handle_frame message m = (Raise e, m') ->
  m' = m \/
  exists ws,
    websocket m = Some ws /\ ws_open ws = true /\
    _handle_heartbeat message m = (Return tt, m') /\
    m' = set_websocket
           (Some {| ws_open := true; ws_sent := ws_sent ws ++ [pong_frame] |})
           m.
Proof.
  unfold handle_frame, bind. intros H.
  destruct (handle_heartbeat_cases message m)
    as [[e' H'] | [H' | (ws & Hws & Hopen & H')]]; rewrite H' in H.
  - left. now inversion H.
  - left. now apply handle_message_failure in H.
  - right. exists ws. apply handle_message_failure in H. subst m'.
    now rewrite H'.
Qed.

(** *** Frames the dispatcher cannot handle *)

Lemma read_loop_frames (pre : list text) (rest : list recv_event)
    (m : WsTopicManager) :
  read_loop (map Frame pre ++ rest) m =
  (for_each pre handle_frame ;; read_loop rest) m.
Proof.
  revert m. induction pre as [ | message pre IH ]; intros m.
  - reflexivity.
  - cbn [map app for_each]. rewrite read_loop_frame. unfold bind at 1 2 3.
    destruct (handle_frame message m) as [[[] | e] m1]; [ | reflexivity ].
    rewrite IH. reflexivity.
Qed.

(** C8, as the code has it: a frame on which the dispatch raises an
    exception other than [ConnectionClosed] (a [JSONDecodeError] for
    malformed JSON) does not leave the dispatch going on the connection:
    the exception is logged by [logger.exception] and the read loop of the
    connection ends, so the frames after it on that connection are not
    read, the connection is closed, and [_connect] goes on with the next
    connection.  The failing frame changes no queue and logs nothing else;
    all it may have done is to send the pong that answers it, and for
    malformed JSON the manager is exactly as it was before the frame. *)
Theorem failing_frame_ends_the_connection
    (pre : list text) (message : text) (rest : list recv_event) (e : exn)
    (m m1 m2 : WsTopicManager) :
  (_reconnect ;; logger LogConnected ;; for_each pre handle_frame)
    (set_websocket (Some fresh_websocket) m) = (Return tt, m1) ->
  handle_frame message m1 = (Raise e, m2) ->
  e <> ConnectionClosed ->
  let script := map Frame pre ++ Frame message :: rest in
  let m3 := close_websocket (add_log (LogException e) m2) in
  session script m = m3 /\
  (forall connections,
     _connect (script :: connections) m = _connect connections m3) /\
  queues m3 = queues m1 /\
  log m3 = log m1 ++ [LogException e] /\
  (forall ws, websocket m3 = Some ws -> ws_open ws = false) /\
  (m2 = m1 \/
   exists ws,
     websocket m1 = Some ws /\ ws_open ws = true /\
     _handle_heartbeat message m1 = (Return tt, m2) /\
     m2 = set_websocket
            (Some {| ws_open := true; ws_sent := ws_sent ws ++ [pong_frame] |})
            m1) /\
  (forall raw, message = Malformed raw -> e = JSONDecodeError raw /\ m2 = m1).
Proof.
  intros Hpre Hfail Hne script m3.
  assert (Hs : session script m = m3).
  { unfold session, script.
    unfold bind at 1 2 in Hpre. unfold bind at 1 2.
    destruct (_reconnect (set_websocket (Some fresh_websocket) m))
      as [[[] | e0] ma]; [ | discriminate ].
    destruct (logger LogConnected ma) as [[[] | e0] mb]; [ | discriminate ].
    rewrite read_loop_frames. unfold bind at 1. rewrite Hpre.
    rewrite read_loop_frame. unfold bind at 1. rewrite Hfail.
    unfold settle, m3. destruct e; try reflexivity. contradiction. }
  pose proof (handle_frame_failure message e m1 m2 Hfail) as Hm2.
  assert (Hq : queues m2 = queues m1 /\ log m2 = log m1).
  { destruct Hm2 as [-> | (ws & _ & _ & _ & ->)]; now split. }
  destruct Hq as [Hq Hl].
  split; [ exact Hs | ]. split; [ | split; [ | split; [ | split; [ | split ] ] ] ].
  - intros connections. cbn [_connect]. now rewrite Hs.
  - unfold m3, close_websocket. cbn [websocket add_log].
    destruct (websocket m2); cbn [queues set_websocket add_log]; exact Hq.
  - unfold m3, close_websocket. cbn [websocket add_log].
    destruct (websocket m2); cbn [log set_websocket add_log]; now rewrite Hl.
  - unfold m3, close_websocket. cbn [websocket add_log]. intros ws.
    destruct (websocket m2) as [ws2 | ] eqn:Hws2.
    + cbn [websocket set_websocket]. intros H. injection H as <-. reflexivity.
    + cbn [websocket add_log]. rewrite Hws2. discriminate.
  - exact Hm2.
  - intros raw ->. unfold handle_frame, _handle_heartbeat, bind, lift in Hfail.
    cbn in Hfail. now inversion Hfail.
Qed.

(** *** REST responses *)

(** C7: [_handle_response] gives the decoded body of a response as its
    result whatever the status, so the body of a 400 response comes back as
    a normal result; no response makes it raise [OrderlyAPIException], which
    would have carried the status, the code and the message. *)
Theorem error_response_body_is_a_normal_result :
  Rest._handle_response Sample.error_response = (Return Sample.error_body, true)
  /\
  (forall response v,
     Rest.json_content response = true ->
     Rest.body response = Document v ->
     fst (Rest._handle_response response) = Return v)
  /\
  (forall response status_code code message,
     fst (Rest._handle_response response) <>
     Raise (OrderlyAPIException status_code code message))
  /\
  Rest.OrderlyAPIException_init Sample.error_body 400 =
  OrderlyAPIException 400 (JNum (-1003)) (JStr "invalid symbol").
Proof.
  split; [ reflexivity | ]. split; [ | split; [ | reflexivity ] ].
  - intros response v Hc Hb. unfold Rest._handle_response.
    now rewrite Hc, Hb.
  - intros response status_code code message. unfold Rest._handle_response.
    destruct (Rest.json_content response); [ | discriminate ].
    destruct (Rest.body response); discriminate.
Qed.

Lemma error_response_body_is_a_normal_result_witness :
  fst (Rest._handle_response Sample.error_response) = Return Sample.error_body.
Proof.
  exact (proj1 (proj2 error_response_body_is_a_normal_result)
           Sample.error_response Sample.error_body eq_refl eq_refl).
Defined.

(** *** The claims the code departs from, at a concrete input *)

(** C1: [_handle_message] on a data frame adds a key to the registry of a
    manager on which [subscribe] was never called. *)
Lemma dispatch_adds_a_key_without_subscribe :
  let m := Sample.public_manager in
  let c := HandleMessage (Document (JObj Sample.trade_frame)) in
  ~ In (JStr "PERP_ETH_USDC@trade") (keys m) /\
  In (JStr "PERP_ETH_USDC@trade") (keys (run c m)) /\
  (forall t, c <> Subscribe t).
Proof.
  cbv zeta. split; [ | split ].
  - intros H. exact H.
  - now left.
  - intros t. discriminate.
Qed.


(** C4: a successful [request] acknowledgment whose data names no symbol
    is not dropped: its dispatch raises [KeyError], and in the read loop
    that ends the connection, so the data frame that follows it is not
    dispatched. *)
Lemma request_ack_without_symbol_raises :
  let m := Sample.bbos_manager in
  let ack := Document (JObj Sample.other_request_ack) in
  let data := Frame (Document (JObj Sample.bbos_frame)) in
  fst (_handle_message ack m) = Raise (KeyError (JStr "symbol")) /\
  _handle_message ack m <> (Return tt, m) /\
  queue_of (JStr "bbos") (_connect [[Frame ack; data]] m) = [] /\
  In (LogException (KeyError (JStr "symbol")))
     (log (_connect [[Frame ack; data]] m)).
Proof.
  cbv zeta. split; [ reflexivity | ]. split; [ discriminate | ].
  split; [ reflexivity | ].
  vm_compute. right. right. now left.
Qed.

(** C5: the dispatch of a data frame for a topic with no queue returns
    normally and leaves a queue for the topic, holding the payload. *)
Lemma unknown_topic_gets_a_queue :
  let m := Sample.public_manager in
  let r := _handle_message (Document (JObj Sample.bbos_frame)) m in
  find (JStr "bbos") (queues m) = None /\
  fst r = Return tt /\
  find (JStr "bbos") (queues (snd r)) = Some [Sample.quote].
Proof. cbv zeta. repeat split. Qed.

(** C6: a ping frame with a [topic] and [data] is answered by a pong and
    its data is put on the topic's queue. *)
Lemma ping_frame_with_data_is_queued :
  let m := Sample.bbos_manager in
  let r := handle_frame (Document (JObj Sample.ping_frame_with_data)) m in
  queue_of (JStr "bbos") m = [] /\
  fst r = Return tt /\
  websocket (snd r) = Some {| ws_open := true; ws_sent := [pong_frame] |} /\
  queue_of (JStr "bbos") (snd r) = [Sample.quote].
Proof. cbv zeta. repeat split. Qed.

(** C8: a data frame that follows a malformed frame on the same connection
    is not dispatched, and the connection ends closed; without the malformed
    frame the data frame reaches its queue. *)
Lemma frame_after_malformed_frame_is_not_dispatched :
  let m := Sample.bbos_manager in
  let data := Frame (Document (JObj Sample.bbos_frame)) in
  let m' := _connect [[Frame (Malformed "{"); data]] m in
  queue_of (JStr "bbos") m' = [] /\
  option_map ws_open (websocket m') = Some false /\
  In (LogException (JSONDecodeError "{")) (log m') /\
  queue_of (JStr "bbos") (_connect [[data]] m) = [Sample.quote].
Proof.
  cbv zeta. split; [ reflexivity | ]. split; [ reflexivity | ].
  split; [ | reflexivity ].
  vm_compute. right. right. now left.
Qed.

(** *** The theorems at concrete inputs *)



Lemma control_acknowledgment_is_raised_routed_or_dropped_witness :
  _handle_message (Document (JObj Sample.failed_ack)) Sample.bbos_manager =
    (Raise (DispatchError (JObj Sample.failed_ack)), Sample.bbos_manager)
  /\
  queue_of (JStr ("PERP_ETH_USDC" ++ "@orderbook"))
    (snd (_handle_message (Document (JObj Sample.orderbook_ack))
            Sample.bbos_manager)) =
  queue_of (JStr ("PERP_ETH_USDC" ++ "@orderbook")) Sample.bbos_manager ++
  [JObj (assign "ts" (JNum 1700000000000) Sample.snapshot)]
  /\
  _handle_message (Document (JObj Sample.subscribe_ack)) Sample.bbos_manager =
    (Return tt, Sample.bbos_manager)
  /\
  _handle_message (Document (JObj Sample.other_request_ack))
    Sample.bbos_manager =
    (Raise (KeyError (JStr "symbol")), Sample.bbos_manager).
Proof.
  split; [ | split; [ | split ] ].
  - exact (proj1 (control_acknowledgment_is_raised_routed_or_dropped
                    Sample.failed_ack (JStr "subscribe") (JBool false)
                    Sample.bbos_manager eq_refl eq_refl eq_refl) eq_refl).
  - exact (proj1 (proj2 (proj1 (proj2
             (control_acknowledgment_is_raised_routed_or_dropped
                Sample.orderbook_ack (JStr "request") (JBool true)
                Sample.bbos_manager eq_refl eq_refl eq_refl))
             eq_refl Sample.snapshot "PERP_ETH_USDC" (JNum 1700000000000)
             eq_refl eq_refl eq_refl eq_refl))).
  - exact (proj1 (proj2 (proj2
             (control_acknowledgment_is_raised_routed_or_dropped
                Sample.subscribe_ack (JStr "subscribe") (JBool true)
                Sample.bbos_manager eq_refl eq_refl eq_refl)))
             eq_refl (or_introl eq_refl)).
  - exact (proj1 (proj2 (proj2 (proj2 (proj2
             (control_acknowledgment_is_raised_routed_or_dropped
                Sample.other_request_ack (JStr "request") (JBool true)
                Sample.bbos_manager eq_refl eq_refl eq_refl)))
             eq_refl eq_refl (JObj [("rows", JArr [])]) eq_refl))
             [("rows", JArr [])] eq_refl eq_refl).
Defined.

Lemma data_frame_for_unknown_topic_makes_its_queue_witness :
  _handle_message (Document (JObj Sample.trade_frame)) Sample.bbos_manager =
  (Return tt,
   set_queues
     (queues Sample.bbos_manager ++ [(JStr "PERP_ETH_USDC@trade", [Sample.price])])
     Sample.bbos_manager).
Proof.
  exact (data_frame_for_unknown_topic_makes_its_queue
           "PERP_ETH_USDC@trade" Sample.price Sample.trade_frame
           Sample.bbos_manager
           (conj eq_refl (conj eq_refl eq_refl)) eq_refl).
Defined.

Lemma ping_is_answered_by_one_pong_witness :
  handle_frame (Document (JObj Sample.ping_frame)) Sample.bbos_manager =
  (Return tt,
   set_websocket
     (Some {| ws_open := true;
              ws_sent := ws_sent fresh_websocket ++ [pong_frame] |})
     Sample.bbos_manager).
Proof.
  exact (proj2 (proj2 (proj2
           (ping_is_answered_by_one_pong Sample.ping_frame Sample.bbos_manager
              fresh_websocket eq_refl eq_refl eq_refl))) eq_refl).
Defined.

Lemma unsubscribe_sends_before_it_pops_witness :
  unsubscribe (JStr "24h_tickers") Sample.bbos_manager =
    (Raise (KeyError (JStr "24h_tickers")),
     set_websocket
       (Some {| ws_open := true;
                ws_sent := ws_sent fresh_websocket ++
                  [unsubscribe_frame "WS_PUBLIC" (JStr "24h_tickers")] |})
       Sample.bbos_manager)
  /\
  (unsubscribe (JStr "bbos") (Sample.disconnected Sample.bbos_manager) =
     (Raise ConnectionClosed, Sample.disconnected Sample.bbos_manager) /\
   find (JStr "bbos")
     (queues (snd (unsubscribe (JStr "bbos")
                     (Sample.disconnected Sample.bbos_manager)))) =
   find (JStr "bbos") (queues (Sample.disconnected Sample.bbos_manager))).
Proof.
  split.
  - exact (proj1 (unsubscribe_sends_before_it_pops "24h_tickers"
                    Sample.bbos_manager fresh_websocket eq_refl)
             eq_refl eq_refl).
  - exact (proj2 (unsubscribe_sends_before_it_pops "bbos"
                    (Sample.disconnected Sample.bbos_manager)
                    {| ws_open := false; ws_sent := [] |} eq_refl)
             eq_refl).
Defined.


Lemma recv_drops_false_items_witness :
  let m := snd (queues_put (JStr "bbos") (JObj []) Sample.bbos_manager) in
  recv (JStr "bbos") (Some 10%Z) [[]; []] m =
    recv (JStr "bbos") (Some 10%Z) [[]]
      (set_queues (store (JStr "bbos") [] (queues m)) m)
  /\
  exists m',
    recv (JStr "bbos") (Some 10%Z) (repeat [] 3) m = (Blocked, m') /\
    queue_of (JStr "bbos") m' = [] /\
    log m' = log m ++ repeat (LogNoMessage 10) 2.
Proof.
  cbv zeta.
  pose proof (recv_drops_false_items "bbos" (Some 10%Z) (JObj [])
                (snd (queues_put (JStr "bbos") (JObj []) Sample.bbos_manager))
                eq_refl eq_refl) as (H1 & _ & H3).
  split.
  - exact (H1 [] [] [[]] eq_refl).
  - exact (H3 eq_refl 2%nat).
Defined.

Lemma failing_frame_ends_the_connection_witness :
  let m := Sample.bbos_manager in
  let m1 := snd ((_reconnect ;; logger LogConnected)
                   (set_websocket (Some fresh_websocket) m)) in
  let data := Frame (Document (JObj Sample.bbos_frame)) in
  let ping := Document (JObj Sample.ping_frame_without_topic) in
  session [Frame (Malformed "{"); data] m =
    close_websocket (add_log (LogException (JSONDecodeError "{")) m1)
  /\
  queues (session [Frame ping; data] m) = queues m1
  /\
  log (session [Frame ping; data] m) =
    log m1 ++ [LogException (KeyError (JStr "topic"))].
Proof.
  cbv zeta. split.
  - refine (proj1 (failing_frame_ends_the_connection
                     [] (Malformed "{")
                     [Frame (Document (JObj Sample.bbos_frame))]
                     (JSONDecodeError "{") Sample.bbos_manager
                     (snd ((_reconnect ;; logger LogConnected)
                             (set_websocket (Some fresh_websocket)
                                Sample.bbos_manager)))
                     (snd ((_reconnect ;; logger LogConnected)
                             (set_websocket (Some fresh_websocket)
                                Sample.bbos_manager)))
                     eq_refl eq_refl _)).
    intros H. discriminate H.
  - assert (Hne : KeyError (JStr "topic") <> ConnectionClosed).
    { intros H. discriminate H. }
    pose proof (failing_frame_ends_the_connection
                  [] (Document (JObj Sample.ping_frame_without_topic))
                  [Frame (Document (JObj Sample.bbos_frame))]
                  (KeyError (JStr "topic")) Sample.bbos_manager
                  (snd ((_reconnect ;; logger LogConnected)
                          (set_websocket (Some fresh_websocket)
                             Sample.bbos_manager)))
                  (snd (handle_frame
                          (Document (JObj Sample.ping_frame_without_topic))
                          (snd ((_reconnect ;; logger LogConnected)
                                  (set_websocket (Some fresh_websocket)
                                     Sample.bbos_manager)))))
                  eq_refl eq_refl Hne) as (Hs & _ & Hq & Hl & _).
    split.
    + exact (eq_trans (f_equal queues Hs) Hq).
    + exact (eq_trans (f_equal log Hs) Hl).
Defined.

Lemma registry_survives_reconnects_witness :
  (exists m',
     _reconnect Sample.bbos_manager = (Return tt, m') /\
     websocket m' =
       Some {| ws_open := true;
               ws_sent := ws_sent fresh_websocket ++
                 public_replay (_id Sample.bbos_manager)
                   (keys Sample.bbos_manager) |} /\
     queues m' = queues Sample.bbos_manager)
  /\
  (exists m',
     _reconnect Sample.account_manager = (Return tt, m') /\
     websocket m' =
       Some {| ws_open := true;
               ws_sent := ws_sent fresh_websocket ++
                 private_replay (_id Sample.account_manager)
                   Sample.account_credentials
                   (fun data => ("signed:" ++ data)%string)
                   (clock Sample.account_manager)
                   (reads Sample.account_manager)
                   (keys Sample.account_manager) |} /\
     queues m' = queues Sample.account_manager)
  /\
  (exists t, Unsubscribe (JStr "bbos") = Unsubscribe t)
  /\
  writes_registry (HandleMessage (Document (JObj Sample.trade_frame))).
Proof.
  pose proof registry_survives_reconnects
    as (_ & Hpub & Hpriv & _ & Hrem & Hadd).
  split; [ | split; [ | split ] ].
  - exact (Hpub Sample.bbos_manager fresh_websocket eq_refl eq_refl eq_refl).
  - exact (Hpriv Sample.account_manager fresh_websocket
             Sample.account_credentials
             (fun data => ("signed:" ++ data)%string)
             eq_refl eq_refl eq_refl eq_refl).
  - exact (Hrem (Unsubscribe (JStr "bbos")) Sample.bbos_manager (JStr "bbos")
             (or_introl eq_refl) (fun H => H)).
  - exact (Hadd (HandleMessage (Document (JObj Sample.trade_frame)))
             Sample.public_manager (JStr "PERP_ETH_USDC@trade")
             (fun H => H) (or_introl eq_refl)).
Defined.

(** ** Further properties of the managers *)

(** *** [subscribe] and [unsubscribe] *)

Lemma key_eqb_str_l (k : json) (t : string) :
  key_eqb (JStr t) k = true -> k = JStr t.
Proof.
  destruct k; simpl; try discriminate.
  intros H. apply String.eqb_eq in H. now subst.
Qed.

Lemma find_str_store_other (t : string) (k : json) (q : list json) qs :
  k <> JStr t -> find (JStr t) (store k q qs) = find (JStr t) qs.
Proof.
  intros Hne. induction qs as [ | [k' q'] qs IH ]; simpl.
  - destruct (key_eqb k (JStr t)) eqn:E; [ | reflexivity ].
    apply key_eqb_str in E. contradiction.
  - destruct (key_eqb k' k) eqn:E; simpl.
    + destruct (key_eqb k' (JStr t)) eqn:E'; [ | reflexivity ].
      apply key_eqb_str in E'. subst k'.
      apply key_eqb_str_l in E. now subst k.
    + now rewrite IH.
Qed.

Lemma find_str_app_other (t : string) (k : json) (q : list json) qs :
  k <> JStr t -> find (JStr t) (qs ++ [(k, q)]) = find (JStr t) qs.
Proof.
  intros Hne. induction qs as [ | [k' q'] qs IH ]; simpl.
  - destruct (key_eqb k (JStr t)) eqn:E; [ | reflexivity ].
    apply key_eqb_str in E. contradiction.
  - now rewrite IH.
Qed.

Lemma store_twice (k : json) (q q0 : list json) qs :
  hashable k = true -> store k q (store k q0 qs) = store k q qs.
Proof.
  intros Hk. induction qs as [ | [k' q'] qs IH ]; simpl.
  - now rewrite key_eqb_refl.
  - destruct (key_eqb k' k) eqn:E; simpl; rewrite E; [ reflexivity | ].
    now rewrite IH.
Qed.

Lemma remove_app_last (k : json) (q : list json) qs :
  hashable k = true -> find k qs = None -> remove k (qs ++ [(k, q)]) = qs.
Proof.
  intros Hk. induction qs as [ | [k' q'] qs IH ]; simpl; intros H.
  - now rewrite key_eqb_refl.
  - destruct (key_eqb k' k); [ discriminate | ].
    now rewrite IH.
Qed.

Lemma find_remove_same (t : string) qs :
  unique qs -> find (JStr t) (remove (JStr t) qs) = None.
Proof.
  induction qs as [ | [k' q'] qs IH ]; simpl; intros Hu.
  - reflexivity.
  - destruct Hu as [Hk Hu].
    destruct (key_eqb k' (JStr t)) eqn:E.
    + apply key_eqb_str in E. now subst k'.
    + simpl. rewrite E. now apply IH.
Qed.

Lemma find_remove_other (t t' : string) qs :
  t' <> t -> find (JStr t') (remove (JStr t) qs) = find (JStr t') qs.
Proof.
  intros Hne. induction qs as [ | [k' q'] qs IH ]; simpl.
  - reflexivity.
  - destruct (key_eqb k' (JStr t)) eqn:E; simpl.
    + apply key_eqb_str in E. subst k'. simpl.
      destruct (String.eqb t t') eqn:E'; [ | reflexivity ].
      apply String.eqb_eq in E'. now subst.
    + now rewrite IH.
Qed.

(** X1: [subscribe] leaves an empty queue for its topic whatever was
    pending, leaves every other topic's queue and the order of the keys as
    they were (a new key goes last), touches nothing else, and is the same
    done twice as done once. *)
Theorem subscribe_resets_its_topic (t : string) (m : WsTopicManager) :
  let m' := snd (subscribe (JStr t) m) in
  fst (subscribe (JStr t) m) = Return tt /\
  queue_of (JStr t) m' = [] /\
  (forall t', t' <> t -> queue_of (JStr t') m' = queue_of (JStr t') m) /\
  keys m' = match find (JStr t) (queues m) with
            | Some _ => keys m
            | None => keys m ++ [JStr t]
            end /\
  websocket m' = websocket m /\ log m' = log m /\
  subscribe (JStr t) m' = (Return tt, m').
Proof.
  cbv zeta. unfold subscribe. cbn [hashable fst snd].
  split; [ reflexivity | ]. split; [ apply queue_of_put_same | ].
  split; [ | split; [ | split; [ reflexivity | split; [ reflexivity | ] ] ] ].
  - intros t' Hne. apply queue_of_put_other. congruence.
  - unfold keys. cbn [queues set_queues]. apply keys_store.
  - cbn [queues set_queues]. rewrite store_twice by reflexivity.
    now rewrite set_queues_twice.
Qed.

(** X2: on an open connection [unsubscribe] of a topic that has a queue
    sends one unsubscribe frame and returns; the topic then has no queue,
    its pending items are gone, and every other topic keeps its queue. *)
Theorem unsubscribe_removes_only_its_topic
    (t : string) (q : list json) (m : WsTopicManager) (ws : WebSocket) :
  websocket m = Some ws -> ws_open ws = true ->
  unique (queues m) ->
  find (JStr t) (queues m) = Some q ->
  exists m',
    unsubscribe (JStr t) m = (Return tt, m') /\
    find (JStr t) (queues m') = None /\
    (forall t', t' <> t ->
       find (JStr t') (queues m') = find (JStr t') (queues m)) /\
    websocket m' =
      Some {| ws_open := true;
              ws_sent := ws_sent ws ++ [unsubscribe_frame (_id m) (JStr t)] |} /\
    log m' = log m.
Proof.
  intros Hws Hopen Hu Hq.
  unfold unsubscribe, bind, websocket_send, queues_pop.
  rewrite Hws, Hopen. cbn [hashable queues set_websocket]. rewrite Hq.
  eexists. split; [ reflexivity | ]. cbn [queues set_queues].
  split; [ now apply find_remove_same | ].
  split; [ intros t' Hne; now apply find_remove_other | ].
  split; reflexivity.
Qed.

(** X3: on an open connection, [subscribe] and then [unsubscribe] of a
    topic that had no queue leaves the manager as it was but for the
    unsubscribe frame that was sent. *)
Theorem subscribe_then_unsubscribe_restores_registry
    (t : string) (m : WsTopicManager) (ws : WebSocket) :
  websocket m = Some ws -> ws_open ws = true ->
  find (JStr t) (queues m) = None ->
  (subscribe (JStr t) ;; unsubscribe (JStr t)) m =
  (Return tt,
   set_websocket
     (Some {| ws_open := true;
              ws_sent := ws_sent ws ++ [unsubscribe_frame (_id m) (JStr t)] |})
     m).
Proof.
  intros Hws Hopen Hq.
  unfold bind at 1. unfold subscribe. cbn [hashable].
  unfold unsubscribe, bind, websocket_send, queues_pop.
  cbn [websocket set_queues _id]. rewrite Hws, Hopen.
  cbn [hashable queues set_websocket].
  assert (Hs : queues (set_queues (store (JStr t) [] (queues m)) m) =
               queues m ++ [(JStr t, [])]).
  { cbn [queues set_queues]. apply store_missing, Hq. }
  rewrite Hs.
  assert (Hf : find (JStr t) (queues m ++ [(JStr t, [])]) = Some []).
  { rewrite <- (store_missing _ _ _ Hq). now apply find_store_same. }
  rewrite Hf, remove_app_last by (reflexivity || exact Hq).
  destruct m. reflexivity.
Qed.

(** X4: before the first connection is made [self.websocket] is not set:
    [unsubscribe] raises [AttributeError] and changes nothing, the registry
    included; [do_subscribe] and [request] raise it after their debug log;
    and a ping cannot be answered. *)
Theorem sending_before_connect_raises (m : WsTopicManager) :
  websocket m = None ->
  (forall topic,
     unsubscribe topic m = (Raise (AttributeError "websocket"), m)) /\
  (forall topic,
     do_subscribe topic m =
     (Raise (AttributeError "websocket"),
      add_log (LogSending (subscribe_frame (_id m) topic)) m)) /\
  (forall symbol,
     request symbol m =
     (Raise (AttributeError "websocket"),
      add_log (LogSending (request_frame (_id m) symbol)) m)) /\
  (forall o,
     lookup "event" o = Some (JStr "ping") ->
     _handle_heartbeat (Document (JObj o)) m =
     (Raise (AttributeError "websocket"), m)).
Proof.
  intros Hws. split; [ | split; [ | split ] ].
  - intros topic. unfold unsubscribe, bind, websocket_send. now rewrite Hws.
  - intros topic.
    unfold do_subscribe, send_json, bind, lift, ret, logger, modify,
      websocket_send. cbn. now rewrite Hws.
  - intros symbol.
    unfold request, send_json, bind, lift, ret, logger, modify,
      websocket_send. cbn. now rewrite Hws.
  - intros o He.
    unfold _handle_heartbeat, send_json, bind, lift, ret, websocket_send.
    cbn. rewrite He. cbn. now rewrite Hws.
Qed.

(** X5: a topic that cannot be a [dict] key (a list or an object) is a
    [TypeError] for [subscribe], for [recv] and for the dispatch of a data
    frame that names it, and none of them changes the manager. *)
Theorem unhashable_topic_is_a_type_error (topic : json) (m : WsTopicManager) :
  hashable topic = false ->
  subscribe topic m = (Raise TypeError, m) /\
  (forall timeout a waits,
     recv topic timeout (a :: waits) m = (Done (Raise TypeError), m)) /\
  (forall o data,
     lookup "event" o = None ->
     lookup "data" o = Some data ->
     lookup "topic" o = Some topic ->
     _handle_message (Document (JObj o)) m = (Raise TypeError, m)).
Proof.
  intros Hh. split; [ | split ].
  - unfold subscribe. now rewrite Hh.
  - intros timeout a waits. cbn [recv]. unfold queues_getitem.
    now rewrite Hh.
  - intros o data He Hd Ht.
    unfold _handle_message, dispatch_data, _handle_general_message,
      queues_put, queues_getitem, bind, lift, ret. cbn.
    rewrite He, Hd, Ht. cbn. now rewrite Hh.
Qed.

(** X6: the dispatch of a frame by [_handle_message] never sends and never
    logs, and a frame on which it raises leaves the manager exactly as it
    was: no queue is made or changed by a frame that fails. *)
Theorem dispatch_is_all_or_nothing (message : text) (m : WsTopicManager) :
  websocket (snd (_handle_message message m)) = websocket m /\
  log (snd (_handle_message message m)) = log m /\
  (forall e, fst (_handle_message message m) = Raise e ->
             snd (_handle_message message m) = m).
Proof.
  destruct (handle_message_cases message m)
    as [[e H] | [H | (topic & data & H)]]; rewrite H.
  - cbn. repeat split.
  - cbn. repeat split.
  - apply queues_put_quiet.
Qed.

(** X7: a pong frame, and a frame with no [event], are not answered, and
    without a [data] field they leave the manager as it was. *)
Theorem frames_without_data_or_ping_are_ignored
    (o : list (string * json)) (m : WsTopicManager) :
  lookup "event" o = None \/ lookup "event" o = Some (JStr "pong") ->
  _handle_heartbeat (Document (JObj o)) m = (Return tt, m) /\
  (lookup "data" o = None ->
   handle_frame (Document (JObj o)) m = (Return tt, m)).
Proof.
  intros He.
  assert (Hhb : _handle_heartbeat (Document (JObj o)) m = (Return tt, m)).
  { unfold _handle_heartbeat, bind, lift, ret. cbn.
    destruct He as [He | He]; now rewrite He. }
  split; [ exact Hhb | ]. intros Hd.
  unfold handle_frame, bind. rewrite Hhb.
  unfold _handle_message, dispatch_data, bind, lift, ret. cbn.
  destruct He as [He | He]; rewrite He; cbn; now rewrite Hd.
Qed.

(** *** [recv] after the dispatcher *)

(** X8: with a timeout that waits (a positive number of seconds, or
    [None]), [recv] returns the first item of the queue that is true: the
    false items before it are taken off and dropped, one per turn of the
    loop, without a timeout being logged, and the items after it stay. *)
Theorem recv_returns_the_first_true_item
    (t : string) (timeout : option Z) (skipped : list json) (v : json)
    (rest : list json) (waits : list (list json)) :
  patient timeout ->
  forall m : WsTopicManager,
    queue_of (JStr t) m = skipped ++ v :: rest ->
    Forall (fun x => truthy x = false) skipped ->
    truthy v = true ->
    exists m',
      recv (JStr t) timeout (repeat [] (S (length skipped)) ++ waits) m =
      (Done (Return v), m') /\
      queue_of (JStr t) m' = rest /\
      log m' = log m /\ websocket m' = websocket m.
Proof.
  intros Hp.
  induction skipped as [ | x skipped IH ]; intros m Hq Hs Hv.
  - cbn [length repeat app]. rewrite (recv_step_patient t timeout _ _ _ Hp).
    cbn [app] in Hq. rewrite Hq, app_nil_r. cbv zeta. rewrite Hv.
    eexists. split; [ reflexivity | ].
    split; [ apply queue_of_put_same | split; reflexivity ].
  - inversion Hs as [ | ? ? Hx Hs' ]; subst.
    cbn [length]. change (repeat [] (S (S (length skipped))))
      with (@nil json :: repeat [] (S (length skipped))).
    cbn [app]. rewrite (recv_step_patient t timeout _ _ _ Hp).
    cbn [app] in Hq. rewrite Hq, app_nil_r. cbv zeta. rewrite Hx.
    set (m1 := set_queues (store (JStr t) (skipped ++ v :: rest) (queues m)) m).
    destruct (IH m1 (queue_of_put_same _ _ _) Hs' Hv)
      as (m' & Hrecv & Hq' & Hlog & Hws).
    exists m'. repeat split; auto.
Qed.

(** X9: after [subscribe] of a topic, the payload of a data frame for it
    is what the next [recv] on the topic returns when it is true and the
    timeout is one that waits; the queue is then what arrived meanwhile. *)
Theorem subscribed_topic_delivers_its_frame
    (t : string) (d : json) (o : list (string * json)) (timeout : option Z)
    (a : list json) (waits : list (list json)) (m : WsTopicManager) :
  is_data_frame t d o ->
  truthy d = true ->
  patient timeout ->
  exists m',
    recv (JStr t) timeout (a :: waits)
      (snd ((subscribe (JStr t) ;; _handle_message (Document (JObj o))) m)) =
    (Done (Return d), m') /\
    queue_of (JStr t) m' = a.
Proof.
  intros Hf Hd Hp. unfold bind, subscribe. cbn [hashable].
  rewrite (handle_data_frame t d o _ Hf), queues_put_str. cbn [snd].
  rewrite queue_of_put_same. cbn [app].
  rewrite (recv_step_patient t timeout _ _ _ Hp).
  rewrite queue_of_put_same. cbn [app]. cbv zeta. rewrite Hd.
  eexists. split; [ reflexivity | apply queue_of_put_same ].
Qed.

Lemma handle_orderbook_ack
    (o d : list (string * json)) (success ts : json) (symbol : string)
    (m : WsTopicManager) :
  lookup "event" o = Some (JStr "request") ->
  lookup "success" o = Some success -> truthy success = true ->
  lookup "data" o = Some (JObj d) ->
  lookup "symbol" d = Some (JStr symbol) ->
  lookup "ts" o = Some ts ->
  _handle_message (Document (JObj o)) m =
  queues_put (JStr (symbol ++ "@orderbook")) (JObj (assign "ts" ts d)) m.
Proof.
  intros He Hs Ht Hd Hsym Hts.
  unfold _handle_message, _handle_request_orderbook, bind, lift, ret.
  cbn. rewrite He. cbn. rewrite Hs, Ht, Hd. cbn. rewrite Hsym. cbn.
  now rewrite Hts.
Qed.

(** X10: the snapshot of a successful [request] acknowledgment is never
    dropped by [recv] as a false item: with nothing pending on
    [{symbol}@orderbook] and a timeout that waits, the next [recv] there
    returns the snapshot with the frame's [ts] in it. *)
Theorem orderbook_snapshot_is_received
    (o d : list (string * json)) (success ts : json) (symbol : string)
    (timeout : option Z) (a : list json) (waits : list (list json))
    (m : WsTopicManager) :
  lookup "event" o = Some (JStr "request") ->
  lookup "success" o = Some success -> truthy success = true ->
  lookup "data" o = Some (JObj d) ->
  lookup "symbol" d = Some (JStr symbol) ->
  lookup "ts" o = Some ts ->
  queue_of (JStr (symbol ++ "@orderbook")) m = [] ->
  patient timeout ->
  exists m',
    recv (JStr (symbol ++ "@orderbook")) timeout (a :: waits)
      (snd (_handle_message (Document (JObj o)) m)) =
    (Done (Return (JObj (assign "ts" ts d))), m') /\
    queue_of (JStr (symbol ++ "@orderbook")) m' = a.
Proof.
  intros He Hs Ht Hd Hsym Hts Hq Hp.
  rewrite (handle_orderbook_ack o d success ts symbol m He Hs Ht Hd Hsym Hts).
  rewrite queues_put_str, Hq. cbn [snd app].
  rewrite (recv_step_patient _ timeout _ _ _ Hp), queue_of_put_same.
  cbn [app]. cbv zeta.
  assert (Htrue : truthy (JObj (assign "ts" ts d)) = true).
  { cbn. destruct d as [ | [k x] d' ]; cbn; [ reflexivity | ].
    now destruct (String.eqb k "ts"). }
  rewrite Htrue. eexists. split; [ reflexivity | apply queue_of_put_same ].
Qed.

(** *** [recv] with a timeout that does not wait, and with none *)

(** X23: with a timeout that is zero or negative [recv] takes nothing off
    the queue: whatever is pending or arrives stays there in order, every
    turn of the loop logs one timeout, the connection is untouched and the
    call is still in its loop; with no timeout ([None]) and nothing pending
    or arriving the call waits without logging anything. *)
Theorem recv_without_patience_or_without_timeout
    (t : string) (m : WsTopicManager) :
  (forall s waits,
     (s <= 0)%Z ->
     exists m',
       recv (JStr t) (Some s) waits m = (Blocked, m') /\
       queue_of (JStr t) m' = queue_of (JStr t) m ++ concat waits /\
       log m' = log m ++ repeat (LogNoMessage s) (length waits) /\
       websocket m' = websocket m)
  /\
  (queue_of (JStr t) m = [] ->
   forall waits, exists m',
     recv (JStr t) None ([] :: waits) m = (Blocked, m') /\
     queue_of (JStr t) m' = [] /\
     log m' = log m /\
     websocket m' = websocket m).
Proof.
  split.
  - intros s waits Hs. now apply recv_impatient.
  - intros Hq waits. rewrite recv_step, Hq. cbv zeta. cbn [app].
    eexists. split; [ reflexivity | ].
    split; [ apply queue_of_put_same | ]. split; reflexivity.
Qed.

(** *** [recv] on a topic that was never subscribed *)

(** One turn of [recv] on a topic name assigns the topic's queue once and
    logs at most one record. *)
Lemma recv_turn_str (t : string) (timeout : option Z) (a : list json)
    (waits : list (list json)) (m : WsTopicManager) :
  exists x,
    let m2 := set_queues (store (JStr t) x (queues m)) m in
    recv (JStr t) timeout (a :: waits) m = (Blocked, m2) \/
    (exists res, recv (JStr t) timeout (a :: waits) m =
                 (Done (Return res), m2)) \/
    recv (JStr t) timeout (a :: waits) m = recv (JStr t) timeout waits m2 \/
    (exists s, recv (JStr t) timeout (a :: waits) m =
               recv (JStr t) timeout waits (add_log (LogNoMessage s) m2)).
Proof.
  rewrite recv_step. cbv zeta.
  assert (Htake : forall res q',
            exists x,
              (if truthy res
               then (Done (Return res),
                     set_queues (store (JStr t) q' (queues m)) m)
               else recv (JStr t) timeout waits
                      (set_queues (store (JStr t) q' (queues m)) m)) =
              (Blocked, set_queues (store (JStr t) x (queues m)) m) \/
              (exists res0,
                 (if truthy res
                  then (Done (Return res),
                        set_queues (store (JStr t) q' (queues m)) m)
                  else recv (JStr t) timeout waits
                         (set_queues (store (JStr t) q' (queues m)) m)) =
                 (Done (Return res0),
                  set_queues (store (JStr t) x (queues m)) m)) \/
              (if truthy res
               then (Done (Return res),
                     set_queues (store (JStr t) q' (queues m)) m)
               else recv (JStr t) timeout waits
                      (set_queues (store (JStr t) q' (queues m)) m)) =
              recv (JStr t) timeout waits
                (set_queues (store (JStr t) x (queues m)) m) \/
              (exists s,
                 (if truthy res
                  then (Done (Return res),
                        set_queues (store (JStr t) q' (queues m)) m)
                  else recv (JStr t) timeout waits
                         (set_queues (store (JStr t) q' (queues m)) m)) =
                 recv (JStr t) timeout waits
                   (add_log (LogNoMessage s)
                      (set_queues (store (JStr t) x (queues m)) m)))).
  { intros res q'. exists q'.
    destruct (truthy res);
      [ right; left; now exists res | right; right; now left ]. }
  destruct timeout as [s | ].
  - destruct (s <=? 0)%Z.
    + exists (queue_of (JStr t) m ++ a). right. right. right. now exists s.
    + destruct (queue_of (JStr t) m ++ a) as [ | res q' ]; [ | apply Htake ].
      exists []. right. right. right. now exists s.
  - destruct (queue_of (JStr t) m ++ a) as [ | res q' ]; [ | apply Htake ].
    exists []. now left.
Qed.

Lemma recv_keeps_connection (t : string) (timeout : option Z)
    (waits : list (list json)) :
  forall m : WsTopicManager,
    websocket (snd (recv (JStr t) timeout waits m)) = websocket m /\
    class (snd (recv (JStr t) timeout waits m)) = class m /\
    _id (snd (recv (JStr t) timeout waits m)) = _id m.
Proof.
  induction waits as [ | a waits IH ]; intros m.
  - cbn. auto.
  - destruct (recv_turn_str t timeout a waits m) as [x Hx]. cbv zeta in Hx.
    destruct Hx as [Hr | [[res Hr] | [Hr | [s Hr]]]]; rewrite Hr.
    + cbn. auto.
    + cbn. auto.
    + destruct (IH (set_queues (store (JStr t) x (queues m)) m))
        as (H1 & H2 & H3).
      rewrite H1, H2, H3. cbn. auto.
    + destruct (IH (add_log (LogNoMessage s)
                      (set_queues (store (JStr t) x (queues m)) m)))
        as (H1 & H2 & H3).
      rewrite H1, H2, H3. cbn. auto.
Qed.

Lemma recv_keeps_known_keys (t : string) (timeout : option Z)
    (waits : list (list json)) :
  forall m : WsTopicManager,
    find (JStr t) (queues m) <> None ->
    keys (snd (recv (JStr t) timeout waits m)) = keys m.
Proof.
  assert (Hstep : forall (m : WsTopicManager) q,
             find (JStr t) (queues m) <> None ->
             keys (set_queues (store (JStr t) q (queues m)) m) = keys m).
  { intros m q H. unfold keys. cbn [queues set_queues]. rewrite keys_store.
    now destruct (find (JStr t) (queues m)). }
  assert (Hfound : forall (m : WsTopicManager) q,
             find (JStr t)
               (queues (set_queues (store (JStr t) q (queues m)) m)) <> None).
  { intros m q. cbn [queues set_queues].
    now rewrite find_store_same. }
  induction waits as [ | a waits IH ]; intros m Hm.
  - reflexivity.
  - destruct (recv_turn_str t timeout a waits m) as [x Hx]. cbv zeta in Hx.
    destruct Hx as [Hr | [[res Hr] | [Hr | [s Hr]]]]; rewrite Hr.
    + now apply Hstep.
    + now apply Hstep.
    + rewrite IH; [ now apply Hstep | apply Hfound ].
    + rewrite IH; [ now apply (Hstep m x) | apply (Hfound m x) ].
Qed.

(** X11: [recv] on a topic that has no queue makes the queue, so the topic
    becomes the last key of the registry, whether or not anything is
    received; the next reconnect of a public manager then sends a subscribe
    frame for it after those of the topics that were there. *)
Theorem recv_on_unknown_topic_registers_it
    (t : string) (timeout : option Z) (a : list json)
    (waits : list (list json)) (m : WsTopicManager) :
  find (JStr t) (queues m) = None ->
  let m' := snd (recv (JStr t) timeout (a :: waits) m) in
  keys m' = keys m ++ [JStr t] /\
  (forall ws,
     class m = OrderlyPublicWsManager ->
     websocket m = Some ws -> ws_open ws = true ->
     exists m'',
       _reconnect m' = (Return tt, m'') /\
       websocket m'' =
         Some {| ws_open := true;
                 ws_sent := ws_sent ws ++ public_replay (_id m) (keys m) ++
                            [subscribe_frame (_id m) (JStr t)] |}).
Proof.
  intros Hnone m'.
  assert (Hkeys : keys m' = keys m ++ [JStr t]).
  { unfold m'.
    assert (Hstep : forall q,
               keys (set_queues (store (JStr t) q (queues m)) m) =
               keys m ++ [JStr t]).
    { intros q. unfold keys. cbn [queues set_queues].
      now rewrite keys_store, Hnone. }
    assert (Hfound : forall q,
               find (JStr t)
                 (queues (set_queues (store (JStr t) q (queues m)) m)) <> None).
    { intros q. cbn [queues set_queues]. now rewrite find_store_same. }
    destruct (recv_turn_str t timeout a waits m) as [x Hx]. cbv zeta in Hx.
    destruct Hx as [Hr | [[res Hr] | [Hr | [s Hr]]]]; rewrite Hr.
    - apply Hstep.
    - apply Hstep.
    - rewrite recv_keeps_known_keys; [ apply Hstep | apply Hfound ].
    - rewrite recv_keeps_known_keys; [ apply (Hstep x) | apply (Hfound x) ]. }
  split; [ exact Hkeys | ].
  intros ws Hc Hws Hopen.
  destruct (recv_keeps_connection t timeout (a :: waits) m) as (H1 & H2 & H3).
  fold m' in H1, H2, H3.
  assert (Hws' : websocket m' = Some ws) by congruence.
  destruct (public_replay_open (keys m') m' ws Hws' Hopen)
    as (m'' & Hrun & Hsent & _).
  exists m''. split.
  - unfold _reconnect. rewrite H2, Hc. exact Hrun.
  - rewrite Hsent, H3, Hkeys. unfold public_replay. now rewrite map_app.
Qed.

(** *** Pending items across the read loop and reconnects *)

Lemma appends_refl (m : WsTopicManager) : appends m m.
Proof. intros t. exists []. now rewrite app_nil_r. Qed.

Lemma appends_trans (m1 m2 m3 : WsTopicManager) :
  appends m1 m2 -> appends m2 m3 -> appends m1 m3.
Proof.
  intros H1 H2 t. destruct (H1 t) as [e1 E1]. destruct (H2 t) as [e2 E2].
  exists (e1 ++ e2). now rewrite E2, E1, app_assoc.
Qed.

Lemma appends_same_queues (m m' : WsTopicManager) :
  queues m' = queues m -> appends m m'.
Proof.
  intros H t. exists []. unfold queue_of. now rewrite H, app_nil_r.
Qed.

Lemma keeps_appending {A} (c : coro A) : keeps c -> appending c.
Proof. intros H m. apply appends_same_queues, H. Qed.

Lemma appending_bind {A B} (c : coro A) (k : A -> coro B) :
  appending c -> (forall a, appending (k a)) -> appending (bind c k).
Proof.
  intros Hc Hk m. unfold bind. specialize (Hc m).
  destruct (c m) as [[a | e] m1]; simpl in *.
  - eapply appends_trans; [ exact Hc | apply Hk ].
  - exact Hc.
Qed.

Lemma appending_lift {A} (r : exn + A) : appending (lift r).
Proof. apply keeps_appending, keeps_lift. Qed.

Lemma key_eqb_str_false (k : json) (t : string) :
  key_eqb k (JStr t) = false -> k <> JStr t.
Proof.
  intros H ->. cbn in H. now rewrite String.eqb_refl in H.
Qed.

Lemma appending_queues_put (topic data : json) :
  appending (queues_put topic data).
Proof.
  intros m t.
  destruct (key_eqb topic (JStr t)) eqn:Ek.
  - apply key_eqb_str in Ek. subst topic.
    exists [data]. rewrite queues_put_str. cbn [snd].
    apply queue_of_put_same.
  - apply key_eqb_str_false in Ek. exists []. rewrite app_nil_r.
    unfold queues_put, bind, queues_getitem, modify.
    destruct (hashable topic); [ | reflexivity ].
    destruct (find topic (queues m)) as [q | ]; cbn [snd];
      unfold queue_of; cbn [queues set_queues].
    + now rewrite find_str_store_other.
    + now rewrite find_str_store_other, find_str_app_other.
Qed.

Lemma appending_handle_message (message : text) :
  appending (_handle_message message).
Proof.
  intros m.
  destruct (handle_message_cases message m)
    as [[e H] | [H | (topic & data & H)]]; rewrite H.
  - apply appends_refl.
  - apply appends_refl.
  - apply appending_queues_put.
Qed.

Lemma appending_read_loop (script : list recv_event) :
  appending (read_loop script).
Proof.
  induction script as [ | [message | | ] script IH ]; cbn [read_loop].
  - apply keeps_appending, keeps_raise.
  - apply appending_bind;
      [ apply keeps_appending, keeps_handle_heartbeat | intros _ ].
    apply appending_bind;
      [ apply appending_handle_message | intros _; exact IH ].
  - apply keeps_appending, keeps_logger.
  - apply keeps_appending, keeps_raise.
Qed.

Lemma appends_settle (r : outcome unit * WsTopicManager) :
  appends (snd r) (settle r).
Proof.
  apply appends_same_queues.
  destruct r as [[[] | e] m]; cbn [snd settle]; unfold close_websocket.
  - now destruct (websocket m).
  - destruct e; cbn [websocket add_log]; now destruct (websocket m).
Qed.

Lemma appends_session (script : list recv_event) (m : WsTopicManager) :
  appends m (session script m).
Proof.
  unfold session.
  eapply appends_trans; [ | apply appends_settle ].
  eapply appends_trans;
    [ apply (appends_same_queues m (set_websocket (Some fresh_websocket) m));
      reflexivity | ].
  apply appending_bind; [ apply keeps_appending, keeps_reconnect | intros _ ].
  apply appending_bind; [ apply keeps_appending, keeps_logger | intros _ ].
  apply appending_read_loop.
Qed.

(** X12: whatever arrives and however many connections are made and lost,
    [_connect] takes nothing off a queue: every topic's queue is the queue
    it was with items added at the back, and every key of the registry is
    still there, in the same order. *)
Theorem connect_only_adds_to_queues
    (connections : list (list recv_event)) (m : WsTopicManager) :
  (forall t, exists more,
     queue_of (JStr t) (_connect connections m) =
     queue_of (JStr t) m ++ more) /\
  (exists extra, keys (_connect connections m) = keys m ++ extra).
Proof.
  split.
  - change (appends m (_connect connections m)).
    revert m. induction connections as [ | script connections IH ];
      intros m; cbn [_connect].
    + apply appends_refl.
    + eapply appends_trans; [ apply appends_session | apply IH ].
  - apply extends_connect.
Qed.

(** *** Reconnects that fail *)

(** X13: a private manager that was built without a secret and has at
    least one topic never reads a frame: on every connection the first
    login raises [AttributeError] before anything is sent, the exception is
    logged and the connection is dropped; the registry stays as it is and
    the clock is read once per connection. *)
Theorem private_manager_without_secret_never_reads
    (c : credentials) (m : WsTopicManager) :
  class m = OrderlyPrivateWsManager c ->
  orderly_private_key c = None ->
  queues m <> [] ->
  (forall script,
     session script m =
     close_websocket
       (add_log (LogException (AttributeError "orderly_private_key"))
          (tick (set_websocket (Some fresh_websocket) m)))) /\
  (forall connections,
     queues (_connect connections m) = queues m /\
     reads (_connect connections m) = (reads m + length connections)%nat /\
     (connections <> [] ->
      websocket (_connect connections m) =
      Some {| ws_open := false; ws_sent := [] |})).
Proof.
  intros Hc Hkey Hq.
  assert (Hs : forall (m0 : WsTopicManager) script,
             class m0 = OrderlyPrivateWsManager c -> queues m0 <> [] ->
             session script m0 =
             close_websocket
               (add_log (LogException (AttributeError "orderly_private_key"))
                  (tick (set_websocket (Some fresh_websocket) m0)))).
  { intros m0 script Hc0 Hq0. unfold session.
    assert (Hr : _reconnect (set_websocket (Some fresh_websocket) m0) =
                 (Raise (AttributeError "orderly_private_key"),
                  tick (set_websocket (Some fresh_websocket) m0))).
    { unfold _reconnect, keys.
      change (class (set_websocket (Some fresh_websocket) m0))
        with (class m0).
      change (queues (set_websocket (Some fresh_websocket) m0))
        with (queues m0).
      rewrite Hc0. destruct (queues m0) as [ | [k q] qs ];
        [ contradiction | ].
      cbn [map fst for_each]. unfold bind, _login. now rewrite Hkey. }
    unfold bind at 1. now rewrite Hr. }
  split; [ intros script; now apply Hs | ].
  intros connections. revert m Hc Hq.
  induction connections as [ | script connections IH ]; intros m Hc Hq.
  - cbn. repeat split; auto. intros H. contradiction.
  - cbn [_connect length]. rewrite (Hs m script Hc Hq).
    set (m1 := close_websocket
                 (add_log (LogException (AttributeError "orderly_private_key"))
                    (tick (set_websocket (Some fresh_websocket) m)))).
    assert (Hc1 : class m1 = OrderlyPrivateWsManager c) by exact Hc.
    assert (Hq1 : queues m1 = queues m) by reflexivity.
    assert (Hq1' : queues m1 <> []) by (rewrite Hq1; exact Hq).
    destruct (IH m1 Hc1 Hq1') as (IHq & IHr & IHw).
    split; [ now rewrite IHq | ]. split.
    + rewrite IHr. cbn. now rewrite <- plus_n_Sm.
    + intros _. destruct connections as [ | script' connections' ].
      * reflexivity.
      * apply IHw. discriminate.
Qed.

(** X14: [_reconnect] with an empty registry sends nothing and needs no
    connection; a public manager on a closed connection raises at its first
    topic, having sent nothing. *)
Theorem reconnect_without_topics_or_connection
    (m : WsTopicManager) :
  (queues m = [] -> _reconnect m = (Return tt, m)) /\
  (forall k ks ws,
     class m = OrderlyPublicWsManager ->
     keys m = k :: ks ->
     websocket m = Some ws -> ws_open ws = false ->
     _reconnect m =
     (Raise ConnectionClosed,
      add_log (LogSending (subscribe_frame (_id m) k)) m)).
Proof.
  split.
  - intros Hq. unfold _reconnect, keys. rewrite Hq.
    now destruct (class m).
  - intros k ks ws Hc Hk Hws Hopen. unfold _reconnect. rewrite Hc, Hk.
    cbn [for_each].
    unfold bind, do_subscribe, send_json, bind, lift, ret, logger, modify,
      websocket_send. cbn. now rewrite Hws, Hopen.
Qed.

(** *** The typed subscribe methods *)

Lemma subscribe_and_send_open (t : string) (m : WsTopicManager)
    (ws : WebSocket) :
  websocket m = Some ws -> ws_open ws = true ->
  (subscribe (JStr t) ;; do_subscribe (JStr t)) m =
  (Return tt,
   set_websocket
     (Some {| ws_open := true;
              ws_sent := ws_sent ws ++ [subscribe_frame (_id m) (JStr t)] |})
     (add_log (LogSending (subscribe_frame (_id m) (JStr t)))
        (set_queues (store (JStr t) [] (queues m)) m))).
Proof.
  intros Hws Hopen. unfold bind, subscribe. cbn [hashable].
  now rewrite (do_subscribe_open (JStr t)
                 (set_queues (store (JStr t) [] (queues m)) m) ws Hws Hopen).
Qed.

Lemma subscribe_and_send_unconnected (t : string) (m : WsTopicManager) :
  websocket m = None ->
  (subscribe (JStr t) ;; do_subscribe (JStr t)) m =
  (Raise (AttributeError "websocket"),
   add_log (LogSending (subscribe_frame (_id m) (JStr t)))
     (set_queues (store (JStr t) [] (queues m)) m)).
Proof.
  intros Hws. unfold bind, subscribe. cbn [hashable].
  unfold do_subscribe, send_json, bind, lift, ret, logger, modify,
    websocket_send. cbn. now rewrite Hws.
Qed.

Lemma public_method_is_subscribe_and_send (symbol interval : string)
    (method : coro unit) (topic : string) :
  In (method, topic) (public_methods symbol interval) ->
  method = (subscribe (JStr topic) ;; do_subscribe (JStr topic)).
Proof.
  unfold public_methods. cbn [In].
  intros [H | [H | [H | [H | [H | [H | [H | []]]]]]]]; inversion H; subst;
    try reflexivity.
  unfold Public.subscribe_ticker. now destruct (String.eqb symbol "").
Qed.

(** X15: on an open connection each typed subscribe method of the public
    manager leaves an empty queue for the topic it names ([bbos],
    [{symbol}@trade], [{symbol}@orderbook], [24h_tickers] when no symbol or
    an empty one is given and [{symbol}@24h_ticker] otherwise,
    [{symbol}@kline_{interval}]), sends exactly one subscribe frame for that
    topic, logs it, and returns; the queues of the other topics are as they
    were. *)
Theorem public_subscribe_methods_register_and_send
    (symbol interval : string) (method : coro unit) (topic : string)
    (m : WsTopicManager) (ws : WebSocket) :
  In (method, topic) (public_methods symbol interval) ->
  websocket m = Some ws -> ws_open ws = true ->
  fst (method m) = Return tt /\
  find (JStr topic) (queues (snd (method m))) = Some [] /\
  queue_of (JStr topic) (snd (method m)) = [] /\
  (forall t', t' <> topic ->
     find (JStr t') (queues (snd (method m))) = find (JStr t') (queues m)) /\
  websocket (snd (method m)) =
    Some {| ws_open := true;
            ws_sent := ws_sent ws ++ [subscribe_frame (_id m) (JStr topic)] |} /\
  log (snd (method m)) =
    log m ++ [LogSending (subscribe_frame (_id m) (JStr topic))] /\
  method m =
  (Return tt,
   set_websocket
     (Some {| ws_open := true;
              ws_sent := ws_sent ws ++ [subscribe_frame (_id m) (JStr topic)] |})
     (add_log (LogSending (subscribe_frame (_id m) (JStr topic)))
        (set_queues (store (JStr topic) [] (queues m)) m))).
Proof.
  intros Hin Hws Hopen.
  rewrite (public_method_is_subscribe_and_send _ _ _ _ Hin).
  rewrite (subscribe_and_send_open topic m ws Hws Hopen).
  cbn [fst snd queues websocket log set_websocket add_log set_queues].
  split; [ reflexivity | ].
  split; [ now apply find_store_same | ].
  split; [ unfold queue_of; cbn [queues set_websocket add_log set_queues];
           now rewrite find_store_same | ].
  split; [ intros t' Hne; apply find_store_other; congruence | ].
  repeat split.
Qed.

(** X16: called before the first connection is made, a typed subscribe
    method of the public manager raises [AttributeError], but the topic has
    its queue by then: it is a key of the registry, with an empty queue, so
    the first connection subscribes it. *)
Theorem public_subscribe_before_connect_still_registers
    (symbol interval : string) (method : coro unit) (topic : string)
    (m : WsTopicManager) :
  In (method, topic) (public_methods symbol interval) ->
  websocket m = None ->
  fst (method m) = Raise (AttributeError "websocket") /\
  In (JStr topic) (keys (snd (method m))) /\
  find (JStr topic) (queues (snd (method m))) = Some [] /\
  websocket (snd (method m)) = None.
Proof.
  intros Hin Hws.
  rewrite (public_method_is_subscribe_and_send _ _ _ _ Hin).
  rewrite (subscribe_and_send_unconnected topic m Hws). cbn [fst snd].
  split; [ reflexivity | ]. split; [ | split ].
  - unfold keys. cbn [queues add_log set_queues]. rewrite keys_store.
    destruct (find (JStr topic) (queues m)) as [q | ] eqn:E.
    + clear Hin. induction (queues m) as [ | [k' q'] qs IH ];
        [ discriminate | ].
      cbn in E |- *. destruct (key_eqb k' (JStr topic)) eqn:Ek.
      * left. now apply key_eqb_str.
      * right. now apply IH.
    + apply in_or_app. right. now left.
  - cbn [queues add_log set_queues]. now apply find_store_same.
  - exact Hws.
Qed.

Lemma private_method_is_subscribe_login_send (c : credentials)
    (method : coro unit) (topic : string) :
  In (method, topic) (private_methods c) ->
  method =
  (subscribe (JStr topic) ;; _login c ;; do_subscribe (JStr topic)).
Proof.
  unfold private_methods. cbn [In].
  intros [H | [H | [H | [H | [H | [H | []]]]]]]; inversion H; reflexivity.
Qed.

(** X17: each typed subscribe method of the private manager ([position],
    [balance], [order], [trade], [liquidation], [pnl]) leaves an empty queue
    for its topic and then, on an open connection and with a signing key,
    sends a login frame made from one new clock reading followed by the
    subscribe frame; without a signing key it raises [AttributeError] after
    the queue is made and sends nothing. *)
Theorem private_subscribe_methods_log_in_first
    (c : credentials) (method : coro unit) (topic : string)
    (m : WsTopicManager) (ws : WebSocket) :
  In (method, topic) (private_methods c) ->
  websocket m = Some ws -> ws_open ws = true ->
  (forall sign,
     orderly_private_key c = Some sign ->
     fst (method m) = Return tt /\
     websocket (snd (method m)) =
       Some {| ws_open := true;
               ws_sent := ws_sent ws ++
                 [auth_frame (_id m) c sign (clock m (reads m));
                  subscribe_frame (_id m) (JStr topic)] |} /\
     queue_of (JStr topic) (snd (method m)) = [] /\
     reads (snd (method m)) = S (reads m)) /\
  (orderly_private_key c = None ->
   method m =
   (Raise (AttributeError "orderly_private_key"),
    tick (set_queues (store (JStr topic) [] (queues m)) m))).
Proof.
  intros Hin Hws Hopen.
  rewrite (private_method_is_subscribe_login_send _ _ _ Hin).
  split.
  - intros sign Hkey.
    set (m1 := set_queues (store (JStr topic) [] (queues m)) m).
    set (login := auth_frame (_id m) c sign (clock m (reads m))).
    assert (Hrun :
      (subscribe (JStr topic) ;; _login c ;; do_subscribe (JStr topic)) m =
      (Return tt,
       set_websocket
         (Some {| ws_open := true;
                  ws_sent := (ws_sent ws ++ [login]) ++
                             [subscribe_frame (_id m) (JStr topic)] |})
         (add_log (LogSending (subscribe_frame (_id m) (JStr topic)))
            (set_websocket
               (Some {| ws_open := true; ws_sent := ws_sent ws ++ [login] |})
               (add_log (LogSending login) (tick m1)))))).
    { unfold bind at 1, subscribe. cbn [hashable]. fold m1.
      unfold bind at 1.
      rewrite (login_open c sign m1 ws Hkey Hws Hopen). cbv zeta.
      erewrite do_subscribe_open; [ | reflexivity | reflexivity ].
      reflexivity. }
    rewrite Hrun. cbn [fst snd]. split; [ reflexivity | ].
    split; [ | split ].
    + cbn [websocket set_websocket]. now rewrite <- app_assoc.
    + unfold queue_of, m1. cbn [queues set_websocket add_log tick set_queues].
      now rewrite find_store_same.
    + reflexivity.
  - intros Hkey. unfold bind at 1, subscribe. cbn [hashable].
    unfold bind at 1, _login. now rewrite Hkey.
Qed.

(** *** The registry has one queue per key *)

Lemma key_eqb_sym (a b : json) : key_eqb a b = key_eqb b a.
Proof.
  destruct a as [ | x | n | s | l | o ], b as [ | y | n' | s' | l' | o' ];
    cbn; try reflexivity.
  - now destruct x, y.
  - apply Z.eqb_sym.
  - apply String.eqb_sym.
Qed.

Lemma find_store_none (k k' : json) (q : list json) qs :
  find k' qs = None -> key_eqb k' k = false ->
  find k' (store k q qs) = None.
Proof.
  intros Hf Hne. induction qs as [ | [k0 q0] qs IH ]; cbn in *.
  - now rewrite key_eqb_sym, Hne.
  - destruct (key_eqb k0 k') eqn:E0; [ discriminate | ].
    destruct (key_eqb k0 k); cbn; rewrite E0; auto.
Qed.

Lemma find_remove_none (k k' : json) qs :
  find k' qs = None -> find k' (remove k qs) = None.
Proof.
  induction qs as [ | [k0 q0] qs IH ]; cbn; intros Hf.
  - reflexivity.
  - destruct (key_eqb k0 k') eqn:E0; [ discriminate | ].
    destruct (key_eqb k0 k); cbn; [ exact Hf | ].
    rewrite E0. now apply IH.
Qed.

Lemma unique_store (k : json) (q : list json) qs :
  unique qs -> unique (store k q qs).
Proof.
  induction qs as [ | [k0 q0] qs IH ]; cbn; intros Hu.
  - auto.
  - destruct Hu as [Hf Hu]. destruct (key_eqb k0 k) eqn:E; cbn.
    + auto.
    + split; [ now apply find_store_none | now apply IH ].
Qed.

Lemma unique_remove (k : json) qs : unique qs -> unique (remove k qs).
Proof.
  induction qs as [ | [k0 q0] qs IH ]; cbn; intros Hu.
  - exact I.
  - destruct Hu as [Hf Hu]. destruct (key_eqb k0 k); cbn.
    + exact Hu.
    + split; [ now apply find_remove_none | now apply IH ].
Qed.

Lemma unique_queues_put (topic data : json) (m : WsTopicManager) :
  unique (queues m) -> unique (queues (snd (queues_put topic data m))).
Proof.
  intros Hu. unfold queues_put, bind, queues_getitem, modify.
  destruct (hashable topic); [ | exact Hu ].
  destruct (find topic (queues m)) as [q | ] eqn:E; cbn.
  - now apply unique_store.
  - apply unique_store. rewrite <- (store_missing topic [] _ E).
    now apply unique_store.
Qed.

Lemma unique_recv (topic : json) (timeout : option Z)
    (waits : list (list json)) :
  forall m, unique (queues m) ->
            unique (queues (snd (recv topic timeout waits m))).
Proof.
  induction waits as [ | a waits IH ]; intros m Hu.
  - exact Hu.
  - pose proof (recv_turn topic timeout a waits m) as Ht.
    assert (H1 : unique (queues (snd (queues_getitem topic m)))).
    { unfold queues_getitem. destruct (hashable topic); [ | exact Hu ].
      destruct (find topic (queues m)) as [q | ] eqn:E; [ exact Hu | ].
      cbn [snd queues set_queues].
      rewrite <- (store_missing topic [] _ E). now apply unique_store. }
    destruct (queues_getitem topic m) as [[q | e] m1]; cbn [snd] in H1;
      [ | now rewrite Ht ].
    destruct Ht as (m2 & Hm2 & Hr).
    assert (H2 : unique (queues m2)).
    { destruct Hm2 as [-> | [x ->]];
        [ exact H1 | now apply unique_store ]. }
    destruct Hr as [Hr | [[res Hr] | [Hr | [s Hr]]]]; rewrite Hr.
    + exact H2.
    + exact H2.
    + now apply IH.
    + now apply IH.
Qed.

Lemma unique_handle_message (message : text) (m : WsTopicManager) :
  unique (queues m) -> unique (queues (snd (_handle_message message m))).
Proof.
  intros Hu.
  destruct (handle_message_cases message m)
    as [[e H] | [H | (topic & data & H)]]; rewrite H; auto.
  now apply unique_queues_put.
Qed.

Lemma unique_read_loop (script : list recv_event) :
  forall m, unique (queues m) -> unique (queues (snd (read_loop script m))).
Proof.
  induction script as [ | [message | | ] script IH ]; intros m Hu;
    cbn [read_loop]; try exact Hu.
  unfold bind.
  pose proof (keeps_handle_heartbeat message m) as Hk.
  destruct (_handle_heartbeat message m) as [[[] | e] m1]; cbn [snd] in *;
    [ | now rewrite Hk ].
  pose proof (unique_handle_message message m1) as Hm.
  destruct (_handle_message message m1) as [[[] | e] m2]; cbn [snd] in *.
  - apply IH, Hm. now rewrite Hk.
  - apply Hm. now rewrite Hk.
Qed.

Lemma queues_settle (r : outcome unit * WsTopicManager) :
  queues (settle r) = queues (snd r).
Proof.
  destruct r as [[[] | e] m]; cbn [snd settle]; unfold close_websocket.
  - now destruct (websocket m).
  - destruct e; cbn [websocket add_log]; now destruct (websocket m).
Qed.

Lemma unique_session (script : list recv_event) (m : WsTopicManager) :
  unique (queues m) -> unique (queues (session script m)).
Proof.
  intros Hu. unfold session. rewrite queues_settle. unfold bind.
  pose proof (keeps_reconnect (set_websocket (Some fresh_websocket) m)) as Hk.
  destruct (_reconnect (set_websocket (Some fresh_websocket) m))
    as [[[] | e] m1]; cbn [snd] in *; [ | now rewrite Hk ].
  cbn [logger modify]. apply unique_read_loop.
  cbn [queues add_log]. now rewrite Hk.
Qed.

(** Every call keeps the keys of the registry distinct, as the [dict] it
    stands for does. *)
Lemma run_keeps_unique (c : call) (m : WsTopicManager) :
  unique (queues m) -> unique (queues (run c m)).
Proof.
  intros Hu. destruct c; cbn [run].
  - unfold subscribe. destruct (hashable topic); [ | exact Hu ].
    now apply unique_store.
  - now rewrite keeps_do_subscribe.
  - now rewrite keeps_request.
  - unfold unsubscribe, bind.
    pose proof (keeps_websocket_send (unsubscribe_frame (_id m) topic) m) as Hk.
    destruct (websocket_send (unsubscribe_frame (_id m) topic) m)
      as [[[] | e] m1]; cbn [snd] in *; [ | now rewrite Hk ].
    unfold queues_pop.
    destruct (hashable topic); [ | cbn [snd]; now rewrite Hk ].
    destruct (find topic (queues m1)); cbn [snd queues set_queues];
      rewrite Hk; [ now apply unique_remove | exact Hu ].
  - now rewrite keeps_send_json.
  - now rewrite keeps_handle_heartbeat.
  - unfold _handle_request_orderbook, bind, lift, ret, raise.
    repeat match goal with
           | |- context [match ?x with inl _ => _ | inr _ => _ end] =>
               destruct x; [ exact Hu | ]
           end.
    now apply unique_queues_put.
  - unfold _handle_general_message, bind, lift, ret, raise.
    repeat match goal with
           | |- context [match ?x with inl _ => _ | inr _ => _ end] =>
               destruct x; [ exact Hu | ]
           end.
    now apply unique_queues_put.
  - now apply unique_recv.
  - now apply unique_handle_message.
  - now rewrite keeps_login.
  - now rewrite keeps_reconnect.
  - revert m Hu. induction connections as [ | script connections IH ];
      intros m Hu; cbn [_connect]; [ exact Hu | ].
    apply IH. now apply unique_session.
Qed.

(** *** Connections that time out or close *)

(** What the end of a connection leaves: one more log record, the queues
    as they were, and the connection closed with what was sent on it. *)
Lemma closed_after_log (r : log_record) (m : WsTopicManager) :
  let m' := close_websocket (add_log r m) in
  queues m' = queues m /\
  log m' = log m ++ [r] /\
  (forall ws, websocket m' = Some ws ->
     ws_open ws = false /\
     exists ws0, websocket m = Some ws0 /\ ws_sent ws = ws_sent ws0).
Proof.
  cbv zeta. unfold close_websocket. cbn [websocket add_log].
  destruct (websocket m) as [ws0 | ] eqn:Hws.
  - cbn [queues log websocket set_websocket add_log].
    split; [ reflexivity | ]. split; [ reflexivity | ].
    intros ws H. injection H as <-. cbn [ws_open ws_sent].
    split; [ reflexivity | ]. now exists ws0.
  - cbn [queues log websocket add_log]. rewrite Hws.
    split; [ reflexivity | ]. split; [ reflexivity | ]. discriminate.
Qed.

(** X22: when the read of the next frame times out, the frames handled so
    far stay handled, a warning is logged (not an exception) and the
    connection is closed and given up for a new one; when the peer closes
    the connection the same happens with the disconnection warning.  In
    both cases the queues are as the last handled frame left them and the
    frames after the event are not read. *)
Theorem session_ends_on_timeout_or_close
    (pre : list text) (rest : list recv_event) (m m1 : WsTopicManager) :
  (_reconnect ;; logger LogConnected ;; for_each pre handle_frame)
    (set_websocket (Some fresh_websocket) m) = (Return tt, m1) ->
  let timed_out := session (map Frame pre ++ IdleTimeout :: rest) m in
  let closed := session (map Frame pre ++ Closed :: rest) m in
  (queues timed_out = queues m1 /\
   log timed_out = log m1 ++ [LogTimedOut] /\
   (forall ws, websocket timed_out = Some ws -> ws_open ws = false))
  /\
  (queues closed = queues m1 /\
   log closed = log m1 ++ [LogDisconnected] /\
   (forall ws, websocket closed = Some ws -> ws_open ws = false))
  /\
  (forall e, In (LogException e) (log timed_out) \/
             In (LogException e) (log closed) ->
             In (LogException e) (log m1))
  /\
  timed_out = close_websocket (add_log LogTimedOut m1) /\
  closed = close_websocket (add_log LogDisconnected m1) /\
  (forall connections,
     _connect ((map Frame pre ++ IdleTimeout :: rest) :: connections) m =
     _connect connections timed_out).
Proof.
  intros Hpre timed_out closed.
  assert (Hrun : forall tail,
            (_reconnect ;; logger LogConnected ;;
             read_loop (map Frame pre ++ tail))
              (set_websocket (Some fresh_websocket) m) =
            read_loop tail m1).
  { intros tail. unfold bind at 1 2 in Hpre. unfold bind at 1 2.
    destruct (_reconnect (set_websocket (Some fresh_websocket) m))
      as [[[] | e0] ma]; [ | discriminate ].
    destruct (logger LogConnected ma) as [[[] | e0] mb]; [ | discriminate ].
    rewrite read_loop_frames. unfold bind at 1. now rewrite Hpre. }
  assert (Ht : timed_out = close_websocket (add_log LogTimedOut m1)).
  { unfold timed_out, session. now rewrite Hrun. }
  assert (Hc : closed = close_websocket (add_log LogDisconnected m1)).
  { unfold closed, session. now rewrite Hrun. }
  destruct (closed_after_log LogTimedOut m1) as (Hq & Hl & Hw).
  destruct (closed_after_log LogDisconnected m1) as (Hq' & Hl' & Hw').
  rewrite <- Ht in Hq, Hl, Hw. rewrite <- Hc in Hq', Hl', Hw'.
  split; [ | split; [ | split; [ | split; [ | split ] ] ] ].
  - split; [ exact Hq | ]. split; [ exact Hl | ].
    intros ws H. exact (proj1 (Hw ws H)).
  - split; [ exact Hq' | ]. split; [ exact Hl' | ].
    intros ws H. exact (proj1 (Hw' ws H)).
  - intros e [H | H]; [ rewrite Hl in H | rewrite Hl' in H ];
      apply in_app_or in H; destruct H as [H | [H | []]];
      first [ exact H | discriminate H ].
  - exact Ht.
  - exact Hc.
  - intros connections. reflexivity.
Qed.

(** ** Properties of the REST client *)

Lemma status_test_agrees : forallb Http.agrees (seq 0 500) = true.
Proof. vm_compute. reflexivity. Qed.

(** X18: for a status in the HTTP range, [_handle_response] logs the
    response as an error exactly when the status is not 200..299, whatever
    the body and however the call ends. *)
Theorem response_is_logged_unless_2xx (response : Rest.ClientResponse) :
  (100 <= Rest.status response <= 599)%Z ->
  snd (Rest._handle_response response) =
  negb ((200 <=? Rest.status response)%Z && (Rest.status response <=? 299)%Z).
Proof.
  intros Hr.
  assert (Hs : snd (Rest._handle_response response) =
               negb (String.prefix "2" (str_of_int (Rest.status response)))).
  { unfold Rest._handle_response.
    destruct (Rest.json_content response); [ | reflexivity ].
    now destruct (Rest.body response). }
  rewrite Hs.
  pose proof status_test_agrees as Hall. rewrite forallb_forall in Hall.
  specialize (Hall (Z.to_nat (Rest.status response - 100))).
  unfold Http.agrees in Hall.
  replace (100 + Z.of_nat (Z.to_nat (Rest.status response - 100)))%Z
    with (Rest.status response) in Hall by lia.
  apply Bool.eqb_prop, Hall. apply in_seq. lia.
Qed.

Lemma lookup_absent (k : string) (o : list (string * json)) :
  ~ In k (map fst o) -> lookup k o = None.
Proof.
  induction o as [ | [k' v] o IH ]; cbn; intros H.
  - reflexivity.
  - destruct (String.eqb k' k) eqn:E.
    + apply String.eqb_eq in E. subst. exfalso. apply H. now left.
    + apply IH. intros Hin. apply H. now right.
Qed.

Lemma keys_assign (k : string) (v : json) (o : list (string * json)) :
  map fst (assign k v o) =
  match lookup k o with
  | Some _ => map fst o
  | None => map fst o ++ [k]
  end.
Proof.
  induction o as [ | [k' v'] o IH ]; cbn.
  - reflexivity.
  - destruct (String.eqb k' k); cbn.
    + reflexivity.
    + rewrite IH. now destruct (lookup k o).
Qed.

Lemma lookup_present (k : string) (o : list (string * json)) :
  lookup k o = None -> ~ In k (map fst o).
Proof.
  induction o as [ | [k' v] o IH ]; cbn; intros H.
  - tauto.
  - destruct (String.eqb k' k) eqn:E; [ discriminate | ].
    apply String.eqb_neq in E. intros [Hk | Hin]; [ contradiction | ].
    now apply IH.
Qed.

Lemma distinct_assign (k : string) (v : json) (o : list (string * json)) :
  NoDup (map fst o) -> NoDup (map fst (assign k v o)).
Proof.
  intros H. rewrite keys_assign. destruct (lookup k o) eqn:E; [ exact H | ].
  apply NoDup_app; [ exact H | repeat constructor; tauto | ].
  intros x Hx [<- | []]. now apply (lookup_present _ _ E).
Qed.

Lemma lookup_update (name : string) (other : list (string * json)) :
  NoDup (map fst other) ->
  forall d,
    lookup name (Client.update d other) =
    match lookup name other with
    | Some v => Some v
    | None => lookup name d
    end.
Proof.
  unfold Client.update.
  induction other as [ | [k v] other IH ]; cbn; intros Hd d.
  - reflexivity.
  - inversion Hd as [ | ? ? Hk Hd' ]; subst. rewrite (IH Hd').
    destruct (String.eqb k name) eqn:E.
    + apply String.eqb_eq in E. subst name.
      now rewrite (lookup_absent _ _ Hk), lookup_assign_same.
    + apply String.eqb_neq in E.
      destruct (lookup name other); [ reflexivity | ].
      apply lookup_assign_other. congruence.
Qed.

Section Requests.

Variable dumps : json -> string.
Variable urlencode : list (string * json) -> string.
Variable url_path : string -> string.

(** What a signed request that has a key leaves in the client. *)
Lemma signed_request_state (method : Client.http_method) (uri : string)
    (params : option (list (string * json))) (body : option json)
    (answer : Rest.ClientResponse) (c : Client.AsyncClient)
    (sign : string -> string) :
  Client.orderly_private_key c = Some sign ->
  let ts := Client.clock c (Client.reads c) in
  let text := Client.signature_str dumps urlencode url_path ts method uri params body in
  let h0 := assign "orderly-signature" (JStr (sign text)) (Client.headers c) in
  let h1 := match Client.account_id c with
            | Some a => assign "orderly-account-id" (JStr a) h0
            | None => h0
            end in
  let h :=
    assign "Cache-Control" (JStr "no-cache")
      (assign "Content-Type"
         (JStr (if Client.given body then "application/json"
                else "application/x-www-form-urlencoded"))
         (assign "orderly-timestamp" (JStr (str_of_int ts))
            (assign "orderly-key"
               (JStr ("ed25519:" ++
                      Client.str_of_optional (Client.orderly_key c)))
               h1))) in
  let r := Client._request dumps urlencode url_path method uri true params body answer c in
  Client.headers (snd r) = h /\
  Client.session_headers (snd r) = Client.update (Client.session_headers c) h /\
  fst r = fst (Rest._handle_response answer) /\
  Client.reads (snd r) = S (Client.reads c) /\
  Client.response (snd r) = Some answer.
Proof.
  intros Hkey ts text h0 h1 h r.
  unfold r, Client._request, Client.sign_request.
  assert (Hk : forall c0,
             Client.orderly_private_key
               (Client.add_log (Client.LogRequestSignature text) c0) =
             Client.orderly_private_key c0) by reflexivity.
  fold ts. fold text. rewrite Hk.
  assert (Hk' : Client.orderly_private_key
                  match body with
                  | Some j => Client.add_log (Client.LogRequestJson j)
                                (Client.tick c)
                  | None => Client.tick c
                  end = Some sign) by (destruct body; exact Hkey).
  rewrite Hk'. unfold Client.handle.
  destruct (Rest._handle_response answer) as [res logged].
  destruct body as [j | ], logged; cbn; repeat split; reflexivity.
Qed.

(** X19: a signed request of a client that has a signing key reads the
    clock once and leaves in [self.headers] the signature of the text
    [{ts}{METHOD}{path}[?{query}]{body}] (the query only for non-empty
    [params], the body text whenever [json] is given), the timestamp, the
    key with its [ed25519:] prefix, [Cache-Control: no-cache], and a
    [Content-Type] that is JSON only when [json] is true, so an empty
    [dict] body is signed but announced as form data; the account id is set
    when the client has one; the session's headers take every one of these
    values; and the result is that of [_handle_response]. *)
Theorem signed_request_sets_the_headers
    (method : Client.http_method) (uri : string)
    (params : option (list (string * json))) (body : option json)
    (answer : Rest.ClientResponse) (c : Client.AsyncClient)
    (sign : string -> string) :
  Client.orderly_private_key c = Some sign ->
  NoDup (map fst (Client.headers c)) ->
  let ts := Client.clock c (Client.reads c) in
  let r := Client._request dumps urlencode url_path method uri true params body answer c in
  let header name := lookup name (Client.headers (snd r)) in
  header "orderly-signature" =
    Some (JStr (sign (Client.signature_str dumps urlencode url_path ts method uri params body))) /\
  header "orderly-timestamp" = Some (JStr (str_of_int ts)) /\
  header "orderly-key" =
    Some (JStr ("ed25519:" ++ Client.str_of_optional (Client.orderly_key c))) /\
  header "Content-Type" =
    Some (JStr (if Client.given body then "application/json"
                else "application/x-www-form-urlencoded")) /\
  header "Cache-Control" = Some (JStr "no-cache") /\
  header "orderly-account-id" =
    match Client.account_id c with
    | Some a => Some (JStr a)
    | None => lookup "orderly-account-id" (Client.headers c)
    end /\
  (forall name v,
     header name = Some v ->
     lookup name (Client.session_headers (snd r)) = Some v) /\
  NoDup (map fst (Client.headers (snd r))) /\
  fst r = fst (Rest._handle_response answer) /\
  Client.reads (snd r) = S (Client.reads c).
Proof.
  intros Hkey Hd ts r header.
  destruct (signed_request_state method uri params body answer c sign Hkey)
    as (Hh & Hs & Hres & Hreads & _).
  fold ts in Hh, Hs. fold r in Hh, Hs, Hres, Hreads.
  unfold header. rewrite Hh, Hs.
  assert (Hd' : forall h, NoDup (map fst h) ->
            NoDup (map fst
              match Client.account_id c with
              | Some a => assign "orderly-account-id" (JStr a) h
              | None => h
              end)).
  { intros h Hn. destruct (Client.account_id c);
      [ now apply distinct_assign | exact Hn ]. }
  repeat split.
  - repeat (rewrite lookup_assign_other by discriminate).
    destruct (Client.account_id c);
      repeat (rewrite lookup_assign_other by discriminate);
      apply lookup_assign_same.
  - repeat (rewrite lookup_assign_other by discriminate).
    apply lookup_assign_same.
  - repeat (rewrite lookup_assign_other by discriminate).
    apply lookup_assign_same.
  - repeat (rewrite lookup_assign_other by discriminate).
    apply lookup_assign_same.
  - apply lookup_assign_same.
  - repeat (rewrite lookup_assign_other by discriminate).
    destruct (Client.account_id c);
      [ apply lookup_assign_same
      | now rewrite lookup_assign_other by discriminate ].
  - intros name v Hv. rewrite lookup_update.
    + now rewrite Hv.
    + repeat apply distinct_assign. apply Hd'. now apply distinct_assign.
  - repeat apply distinct_assign. apply Hd'. now apply distinct_assign.
  - exact Hres.
  - exact Hreads.
Qed.

Lemma signed_request_session_values
    (method : Client.http_method) (uri : string)
    (params : option (list (string * json))) (body : option json)
    (answer : Rest.ClientResponse) (c : Client.AsyncClient)
    (sign : string -> string) :
  Client.orderly_private_key c = Some sign ->
  NoDup (map fst (Client.headers c)) ->
  let ts := Client.clock c (Client.reads c) in
  let c1 := snd (Client._request dumps urlencode url_path method uri true
                   params body answer c) in
  lookup "orderly-signature" (Client.session_headers c1) =
    Some (JStr (sign (Client.signature_str dumps urlencode url_path ts
                        method uri params body))) /\
  lookup "orderly-timestamp" (Client.session_headers c1) =
    Some (JStr (str_of_int ts)).
Proof.
  intros Hkey Hd ts c1.
  destruct (signed_request_state method uri params body answer c sign Hkey)
    as (_ & Hs & _).
  fold ts in Hs. fold c1 in Hs. rewrite Hs.
  assert (Hn : forall h, NoDup (map fst h) ->
            NoDup (map fst
              match Client.account_id c with
              | Some a => assign "orderly-account-id" (JStr a) h
              | None => h
              end)).
  { intros h Hh. destruct (Client.account_id c);
      [ now apply distinct_assign | exact Hh ]. }
  split; (rewrite lookup_update;
    [ | repeat apply distinct_assign; apply Hn; now apply distinct_assign ]).
  - repeat (rewrite lookup_assign_other by discriminate).
    destruct (Client.account_id c);
      repeat (rewrite lookup_assign_other by discriminate);
      now rewrite lookup_assign_same.
  - repeat (rewrite lookup_assign_other by discriminate).
    now rewrite lookup_assign_same.
Qed.

(** X20: a request that is not signed reads no clock and changes neither
    [self.headers] nor the session's headers, so after a signed request the
    session still carries that request's signature and timestamp on the
    requests that follow, signed or not, until the next signed one. *)
Theorem unsigned_request_keeps_the_last_signature
    (method method' : Client.http_method) (uri uri' : string)
    (params params' : option (list (string * json)))
    (body body' : option json) (answer answer' : Rest.ClientResponse)
    (c : Client.AsyncClient) (sign : string -> string) :
  Client.orderly_private_key c = Some sign ->
  NoDup (map fst (Client.headers c)) ->
  let ts := Client.clock c (Client.reads c) in
  let c1 := snd (Client._request dumps urlencode url_path method uri true params body answer c) in
  let c2 := snd (Client._request dumps urlencode url_path method' uri' false params' body' answer' c1) in
  Client.headers c2 = Client.headers c1 /\
  Client.session_headers c2 = Client.session_headers c1 /\
  Client.reads c2 = Client.reads c1 /\
  lookup "orderly-signature" (Client.session_headers c2) =
    Some (JStr (sign (Client.signature_str dumps urlencode url_path ts method uri params body))) /\
  lookup "orderly-timestamp" (Client.session_headers c2) =
    Some (JStr (str_of_int ts)).
Proof.
  intros Hkey Hd ts c1 c2.
  assert (H2 : Client.headers c2 = Client.headers c1 /\
               Client.session_headers c2 = Client.session_headers c1 /\
               Client.reads c2 = Client.reads c1).
  { unfold c2, Client._request, Client.handle.
    destruct (Rest._handle_response answer') as [res logged].
    destruct logged; cbn; auto. }
  destruct H2 as (Hh & Hs & Hr).
  destruct (signed_request_session_values method uri params body answer
              c sign Hkey Hd) as (Hsig & Hts).
  repeat split; auto; rewrite Hs; [ exact Hsig | exact Hts ].
Qed.

(** X21: a signed request of a client that has no signing key raises
    [AttributeError] after the clock is read and the text to sign is logged:
    no header is set, the session's headers are as they were and no request
    is made ([self.response] is not set). *)
Theorem signed_request_without_secret_sends_nothing
    (method : Client.http_method) (uri : string)
    (params : option (list (string * json))) (body : option json)
    (answer : Rest.ClientResponse) (c : Client.AsyncClient) :
  Client.orderly_private_key c = None ->
  let r := Client._request dumps urlencode url_path method uri true
             params body answer c in
  fst r = Raise (AttributeError "orderly_private_key") /\
  Client.headers (snd r) = Client.headers c /\
  Client.session_headers (snd r) = Client.session_headers c /\
  Client.response (snd r) = Client.response c /\
  Client.reads (snd r) = S (Client.reads c) /\
  In (Client.LogRequestSignature
        (Client.signature_str dumps urlencode url_path
           (Client.clock c (Client.reads c)) method uri params body))
     (Client.log (snd r)).
Proof.
  intros Hkey r. unfold r, Client._request, Client.sign_request.
  assert (Hk : Client.orderly_private_key
                 (Client.add_log
                    (Client.LogRequestSignature
                       (Client.signature_str dumps urlencode url_path
                          (Client.clock c (Client.reads c)) method uri
                          params body))
                    match body with
                    | Some j => Client.add_log (Client.LogRequestJson j)
                                  (Client.tick c)
                    | None => Client.tick c
                    end) = None) by (destruct body; exact Hkey).
  rewrite Hk. cbn [fst snd].
  destruct body as [j | ]; cbn; repeat split;
    apply in_or_app; right; now left.
Qed.

End Requests.

(** ** The further properties at concrete inputs *)

Lemma unsubscribe_removes_only_its_topic_witness :
  exists m',
    unsubscribe (JStr "bbos") Sample.bbos_manager = (Return tt, m') /\
    find (JStr "bbos") (queues m') = None /\
    (forall t', t' <> "bbos" ->
       find (JStr t') (queues m') =
       find (JStr t') (queues Sample.bbos_manager)) /\
    websocket m' =
      Some {| ws_open := true;
              ws_sent := ws_sent fresh_websocket ++
                [unsubscribe_frame (_id Sample.bbos_manager) (JStr "bbos")] |} /\
    log m' = log Sample.bbos_manager.
Proof.
  exact (unsubscribe_removes_only_its_topic "bbos" [] Sample.bbos_manager
           fresh_websocket eq_refl eq_refl (conj eq_refl I) eq_refl).
Defined.

Lemma subscribe_then_unsubscribe_restores_registry_witness :
  (subscribe (JStr "24h_tickers") ;; unsubscribe (JStr "24h_tickers"))
    Sample.bbos_manager =
  (Return tt,
   set_websocket
     (Some {| ws_open := true;
              ws_sent := ws_sent fresh_websocket ++
                [unsubscribe_frame (_id Sample.bbos_manager)
                   (JStr "24h_tickers")] |})
     Sample.bbos_manager).
Proof.
  exact (subscribe_then_unsubscribe_restores_registry "24h_tickers"
           Sample.bbos_manager fresh_websocket eq_refl eq_refl eq_refl).
Defined.

Lemma sending_before_connect_raises_witness :
  unsubscribe (JStr "bbos") Sample.public_manager =
  (Raise (AttributeError "websocket"), Sample.public_manager).
Proof.
  exact (proj1 (sending_before_connect_raises Sample.public_manager eq_refl)
           (JStr "bbos")).
Defined.

Lemma unhashable_topic_is_a_type_error_witness :
  subscribe (JArr [JStr "bbos"]) Sample.public_manager =
  (Raise TypeError, Sample.public_manager).
Proof.
  exact (proj1 (unhashable_topic_is_a_type_error (JArr [JStr "bbos"])
                  Sample.public_manager eq_refl)).
Defined.

Lemma frames_without_data_or_ping_are_ignored_witness :
  handle_frame (Document (JObj [("event", JStr "pong")])) Sample.bbos_manager =
  (Return tt, Sample.bbos_manager).
Proof.
  exact (proj2 (frames_without_data_or_ping_are_ignored
                  [("event", JStr "pong")] Sample.bbos_manager
                  (or_intror eq_refl)) eq_refl).
Defined.

Lemma recv_returns_the_first_true_item_witness :
  let m := snd (queues_put (JStr "bbos") Sample.quote
                  (snd (queues_put (JStr "bbos") (JObj [])
                          Sample.bbos_manager))) in
  exists m',
    recv (JStr "bbos") (Some 10%Z) (repeat [] 2 ++ []) m =
      (Done (Return Sample.quote), m') /\
    queue_of (JStr "bbos") m' = [] /\
    log m' = log m /\ websocket m' = websocket m.
Proof.
  exact (recv_returns_the_first_true_item "bbos" (Some 10%Z) [JObj []]
           Sample.quote [] [] eq_refl
           (snd (queues_put (JStr "bbos") Sample.quote
                   (snd (queues_put (JStr "bbos") (JObj [])
                           Sample.bbos_manager))))
           eq_refl
           (@Forall_cons json (fun x => truthy x = false) (JObj []) []
              eq_refl (Forall_nil _))
           eq_refl).
Defined.

Lemma subscribed_topic_delivers_its_frame_witness :
  exists m',
    recv (JStr "PERP_ETH_USDC@trade") (Some 10%Z) [[]]
      (snd ((subscribe (JStr "PERP_ETH_USDC@trade") ;;
             _handle_message (Document (JObj Sample.trade_frame)))
              Sample.public_manager)) =
    (Done (Return Sample.price), m') /\
    queue_of (JStr "PERP_ETH_USDC@trade") m' = [].
Proof.
  exact (subscribed_topic_delivers_its_frame "PERP_ETH_USDC@trade"
           Sample.price Sample.trade_frame (Some 10%Z) [] []
           Sample.public_manager
           (conj eq_refl (conj eq_refl eq_refl)) eq_refl eq_refl).
Defined.

Lemma orderbook_snapshot_is_received_witness :
  exists m',
    recv (JStr ("PERP_ETH_USDC" ++ "@orderbook")) None [[]]
      (snd (_handle_message (Document (JObj Sample.orderbook_ack))
              Sample.bbos_manager)) =
    (Done (Return (JObj (assign "ts" (JNum 1700000000000) Sample.snapshot))),
     m') /\
    queue_of (JStr ("PERP_ETH_USDC" ++ "@orderbook")) m' = [].
Proof.
  exact (orderbook_snapshot_is_received Sample.orderbook_ack Sample.snapshot
           (JBool true) (JNum 1700000000000) "PERP_ETH_USDC" None [] []
           Sample.bbos_manager
           eq_refl eq_refl eq_refl eq_refl eq_refl eq_refl eq_refl I).
Defined.

Lemma recv_on_unknown_topic_registers_it_witness :
  keys (snd (recv (JStr "24h_tickers") (Some 10%Z) [[]] Sample.bbos_manager)) =
  keys Sample.bbos_manager ++ [JStr "24h_tickers"].
Proof.
  exact (proj1 (recv_on_unknown_topic_registers_it "24h_tickers" (Some 10%Z)
                  [] [] Sample.bbos_manager eq_refl)).
Defined.

Lemma private_manager_without_secret_never_reads_witness :
  let c := {| orderly_key := Some "key"; orderly_secret := None;
              orderly_private_key := None |} in
  let m := snd (subscribe (JStr "position")
                  (init (OrderlyPrivateWsManager c) "WS_PRIVATE" ""
                     "wss://ws-private-evm.orderly.org/v2/ws/private/stream/"
                     (fun _ => 0%Z))) in
  queues (_connect [[Frame (Document (JObj Sample.bbos_frame))]; []] m) =
  queues m.
Proof.
  cbv zeta.
  refine (proj1 (proj2 (private_manager_without_secret_never_reads
            {| orderly_key := Some "key"; orderly_secret := None;
               orderly_private_key := None |}
            (snd (subscribe (JStr "position")
                    (init (OrderlyPrivateWsManager
                             {| orderly_key := Some "key";
                                orderly_secret := None;
                                orderly_private_key := None |})
                       "WS_PRIVATE" ""
                       "wss://ws-private-evm.orderly.org/v2/ws/private/stream/"
                       (fun _ => 0%Z))))
            eq_refl eq_refl _)
            [[Frame (Document (JObj Sample.bbos_frame))]; []])).
  intros H. discriminate H.
Defined.

Lemma public_subscribe_methods_register_and_send_witness :
  let m' := snd (Public.subscribe_trade "PERP_ETH_USDC" Sample.bbos_manager) in
  fst (Public.subscribe_trade "PERP_ETH_USDC" Sample.bbos_manager) =
    Return tt /\
  find (JStr "PERP_ETH_USDC@trade") (queues m') = Some [] /\
  websocket m' =
    Some {| ws_open := true;
            ws_sent := ws_sent fresh_websocket ++
              [subscribe_frame (_id Sample.bbos_manager)
                 (JStr "PERP_ETH_USDC@trade")] |}.
Proof.
  cbv zeta.
  pose proof (public_subscribe_methods_register_and_send "PERP_ETH_USDC" "1m"
                (Public.subscribe_trade "PERP_ETH_USDC") "PERP_ETH_USDC@trade"
                Sample.bbos_manager fresh_websocket
                (or_intror (or_introl eq_refl)) eq_refl eq_refl)
    as (H1 & H2 & _ & _ & H5 & _).
  split; [ exact H1 | ]. split; [ exact H2 | exact H5 ].
Defined.

Lemma public_subscribe_before_connect_still_registers_witness :
  fst (Public.subscribe_bbos Sample.public_manager) =
    Raise (AttributeError "websocket") /\
  In (JStr "bbos") (keys (snd (Public.subscribe_bbos Sample.public_manager))) /\
  find (JStr "bbos")
    (queues (snd (Public.subscribe_bbos Sample.public_manager))) = Some [] /\
  websocket (snd (Public.subscribe_bbos Sample.public_manager)) = None.
Proof.
  exact (public_subscribe_before_connect_still_registers "PERP_ETH_USDC" "1m"
           Public.subscribe_bbos "bbos" Sample.public_manager
           (or_introl eq_refl) eq_refl).
Defined.

Lemma private_subscribe_methods_log_in_first_witness :
  fst (Private.subscribe_position Sample.account_credentials
         Sample.account_manager) = Return tt /\
  websocket (snd (Private.subscribe_position Sample.account_credentials
                    Sample.account_manager)) =
    Some {| ws_open := true;
            ws_sent := ws_sent fresh_websocket ++
              [auth_frame (_id Sample.account_manager)
                 Sample.account_credentials
                 (fun data => ("signed:" ++ data)%string)
                 (clock Sample.account_manager (reads Sample.account_manager));
               subscribe_frame (_id Sample.account_manager)
                 (JStr "position")] |} /\
  queue_of (JStr "position")
    (snd (Private.subscribe_position Sample.account_credentials
            Sample.account_manager)) = [] /\
  reads (snd (Private.subscribe_position Sample.account_credentials
                Sample.account_manager)) =
  S (reads Sample.account_manager).
Proof.
  exact (proj1 (private_subscribe_methods_log_in_first
                  Sample.account_credentials
                  (Private.subscribe_position Sample.account_credentials)
                  "position" Sample.account_manager fresh_websocket
                  (or_introl eq_refl) eq_refl eq_refl)
           (fun data => ("signed:" ++ data)%string) eq_refl).
Defined.

Lemma response_is_logged_unless_2xx_witness :
  snd (Rest._handle_response Sample.error_response) =
  negb ((200 <=? Rest.status Sample.error_response)%Z &&
        (Rest.status Sample.error_response <=? 299)%Z).
Proof.
  apply (response_is_logged_unless_2xx Sample.error_response).
  cbn. lia.
Defined.

Lemma signed_request_sets_the_headers_witness :
  let r := Client._request Http.dumps Http.urlencode Http.url_path
             Client.POST "https://api.orderly.org/v1/order" true None
             (Some (JObj [])) Http.ok_response Http.client in
  lookup "orderly-signature" (Client.headers (snd r)) =
    Some (JStr "signed:1700000000000POST/v1/order{}") /\
  lookup "Content-Type" (Client.headers (snd r)) =
    Some (JStr "application/x-www-form-urlencoded").
Proof.
  cbv zeta.
  pose proof (signed_request_sets_the_headers Http.dumps Http.urlencode
                Http.url_path Client.POST "https://api.orderly.org/v1/order"
                None (Some (JObj [])) Http.ok_response Http.client
                (fun data => ("signed:" ++ data)%string)
                eq_refl (NoDup_nil _)) as (Hsig & _ & _ & Hct & _).
  split; [ exact Hsig | exact Hct ].
Defined.

Lemma unsigned_request_keeps_the_last_signature_witness :
  let c1 := snd (Client._request Http.dumps Http.urlencode Http.url_path
                   Client.POST "https://api.orderly.org/v1/order" true None
                   (Some (JObj [])) Http.ok_response Http.client) in
  let c2 := snd (Client._request Http.dumps Http.urlencode Http.url_path
                   Client.GET "https://api.orderly.org/v1/public/info" false
                   None None Http.ok_response c1) in
  lookup "orderly-signature" (Client.session_headers c2) =
  Some (JStr "signed:1700000000000POST/v1/order{}").
Proof.
  cbv zeta.
  exact (proj1 (proj2 (proj2 (proj2
           (unsigned_request_keeps_the_last_signature Http.dumps
              Http.urlencode Http.url_path Client.POST Client.GET
              "https://api.orderly.org/v1/order"
              "https://api.orderly.org/v1/public/info"
              None None (Some (JObj [])) None Http.ok_response
              Http.ok_response Http.client
              (fun data => ("signed:" ++ data)%string)
              eq_refl (NoDup_nil _)))))).
Defined.

Lemma signed_request_without_secret_sends_nothing_witness :
  let r := Client._request Http.dumps Http.urlencode Http.url_path
             Client.GET "https://api.orderly.org/v1/positions" true None None
             Http.ok_response Http.anonymous in
  fst r = Raise (AttributeError "orderly_private_key") /\
  Client.response (snd r) = None.
Proof.
  cbv zeta.
  pose proof (signed_request_without_secret_sends_nothing Http.dumps
                Http.urlencode Http.url_path Client.GET
                "https://api.orderly.org/v1/positions" None None
                Http.ok_response Http.anonymous eq_refl)
    as (Hr & _ & _ & Hresp & _).
  split; [ exact Hr | exact Hresp ].
Defined.

Lemma session_ends_on_timeout_or_close_witness :
  let timed_out :=
    session (map Frame [Document (JObj Sample.bbos_frame)] ++ IdleTimeout :: [])
      Sample.bbos_manager in
  queue_of (JStr "bbos") timed_out = [Sample.quote] /\
  In LogTimedOut (log timed_out) /\
  (forall ws, websocket timed_out = Some ws -> ws_open ws = false).
Proof.
  cbv zeta.
  pose proof (session_ends_on_timeout_or_close
                [Document (JObj Sample.bbos_frame)] [] Sample.bbos_manager
                (snd ((_reconnect ;; logger LogConnected ;;
                       for_each [Document (JObj Sample.bbos_frame)]
                         handle_frame)
                        (set_websocket (Some fresh_websocket)
                           Sample.bbos_manager)))
                eq_refl) as ((Hq & Hl & Hw) & _).
  split; [ | split ].
  - unfold queue_of. rewrite Hq. reflexivity.
  - rewrite Hl. apply in_or_app. right. now left.
  - exact Hw.
Defined.

Lemma recv_without_patience_or_without_timeout_witness :
  (exists m',
     recv (JStr "bbos") (Some 0%Z) [[Sample.quote]; []] Sample.bbos_manager =
       (Blocked, m') /\
     queue_of (JStr "bbos") m' =
       queue_of (JStr "bbos") Sample.bbos_manager ++
       concat [[Sample.quote]; []] /\
     log m' = log Sample.bbos_manager ++ repeat (LogNoMessage 0) 2 /\
     websocket m' = websocket Sample.bbos_manager)
  /\
  (exists m',
     recv (JStr "bbos") None [[]] Sample.bbos_manager = (Blocked, m') /\
     queue_of (JStr "bbos") m' = [] /\
     log m' = log Sample.bbos_manager /\
     websocket m' = websocket Sample.bbos_manager).
Proof.
  pose proof (recv_without_patience_or_without_timeout "bbos"
                Sample.bbos_manager) as (H1 & H2).
  split.
  - exact (H1 0%Z [[Sample.quote]; []] (Z.le_refl 0)).
  - exact (H2 eq_refl []).
Defined.
